(** * AnalyticsService (examples/python/performance-example.py)

    A shallow embedding of the tiered analytics read path: cache-strategy
    selection, cache-key construction, the Redis wrapper, the store query
    builder, [get_metric] and [batch_get_metrics].

    Conventions.
    - A Python [str] is a [string]: a sequence of code points below 256.
    - A naive [datetime] is the number of microseconds since
      0001-01-01T00:00:00 minus one day (so that the day number is Python's
      [toordinal()]); a [timedelta] is a number of microseconds.  Python
      subtracts and compares both exactly as these integers do.
    - A [float] of milliseconds is kept as an exact rational.
    - Coroutines are finite trees of operations ([coro]); the event loop is a
      scheduler that runs one operation of one task at a time. *)

From Stdlib Require Import ZArith List String Ascii Bool Lia QArith.
From Stdlib Require Import Permutation Sorted.
From Stdlib Require OrderedTypeEx.
Import ListNotations.

Local Open Scope string_scope.
Local Open Scope Z_scope.

(** ** Python values *)

Module Py.

(** [str(n)] for an integer, and ["%0wd" % n] for a non-negative one. *)
Definition digit (d : Z) : ascii := ascii_of_nat (48 + Z.to_nat d).

Fixpoint digits (fuel : nat) (n : Z) (acc : string) : string :=
  match fuel with
  | O => acc
  | S fuel' =>
      let acc' := String (digit (n mod 10)) acc in
      if n <? 10 then acc' else digits fuel' (n / 10) acc'
  end.

Definition str_nonneg (n : Z) : string := digits (S (Z.to_nat (Z.log2 n))) n EmptyString.

Definition str_int (n : Z) : string :=
  if n <? 0 then "-" ++ str_nonneg (- n) else str_nonneg n.

Fixpoint zeros (k : nat) : string :=
  match k with O => EmptyString | S k' => String "0"%char (zeros k') end.

Definition zpad (width : nat) (n : Z) : string :=
  let s := str_nonneg n in
  zeros (width - String.length s) ++ s.

(** [sep.join(parts)] *)
Fixpoint join (sep : string) (parts : list string) : string :=
  match parts with
  | [] => EmptyString
  | [p] => p
  | p :: rest => p ++ sep ++ join sep rest
  end.

(** *** datetime / timedelta *)

Definition datetime := Z.
Definition timedelta := Z.

Definition US_PER_SECOND : Z := 1000000.
Definition US_PER_DAY : Z := 86400 * US_PER_SECOND.

(** [timedelta(days=d, hours=h)] *)
Definition timedelta_of (days hours : Z) : timedelta :=
  days * US_PER_DAY + hours * 3600 * US_PER_SECOND.

(** [td.total_seconds() * 1000] *)
Definition total_ms (td : timedelta) : Q := Qmake td 1000.

Definition _is_leap (year : Z) : bool :=
  (year mod 4 =? 0) && (negb (year mod 100 =? 0) || (year mod 400 =? 0)).

Definition _days_before_year (year : Z) : Z :=
  let y := year - 1 in y * 365 + y / 4 - y / 100 + y / 400.

Definition _DAYS_IN_MONTH : list Z :=
  [-1; 31; 28; 31; 30; 31; 30; 31; 31; 30; 31; 30; 31].

Definition _DAYS_BEFORE_MONTH : list Z :=
  [-1; 0; 31; 59; 90; 120; 151; 181; 212; 243; 273; 304; 334].

Definition _days_before_month (year month : Z) : Z :=
  nth (Z.to_nat month) _DAYS_BEFORE_MONTH 0
  + (if (2 <? month) && _is_leap year then 1 else 0).

Definition _ymd2ord (year month day : Z) : Z :=
  _days_before_year year + _days_before_month year month + day.

(** [datetime(year, month, day, hour, minute, second, microsecond)] *)
Definition mk_datetime (year month day hour minute second microsecond : Z)
  : datetime :=
  (_ymd2ord year month day * 86400 + hour * 3600 + minute * 60 + second)
  * US_PER_SECOND + microsecond.

Definition _DI400Y : Z := 146097.
Definition _DI100Y : Z := 36524.
Definition _DI4Y : Z := 1461.

Definition _ord2ymd (ordinal : Z) : Z * Z * Z :=
  let n := ordinal - 1 in
  let n400 := n / _DI400Y in
  let n := n mod _DI400Y in
  let year := n400 * 400 + 1 in
  let n100 := n / _DI100Y in
  let n := n mod _DI100Y in
  let n4 := n / _DI4Y in
  let n := n mod _DI4Y in
  let n1 := n / 365 in
  let n := n mod 365 in
  let year := year + n100 * 100 + n4 * 4 + n1 in
  if (n1 =? 4) || (n100 =? 4) then (year - 1, 12, 31)
  else
    let leapyear := (n1 =? 3) && (negb (n4 =? 24) || (n100 =? 3)) in
    let month := Z.shiftr (n + 50) 5 in
    let preceding :=
      nth (Z.to_nat month) _DAYS_BEFORE_MONTH 0
      + (if (2 <? month) && leapyear then 1 else 0) in
    if n <? preceding then
      let month := month - 1 in
      let preceding :=
        preceding
        - (nth (Z.to_nat month) _DAYS_IN_MONTH 0
           + (if (month =? 2) && leapyear then 1 else 0)) in
      (year, month, n - preceding + 1)
    else (year, month, n - preceding + 1).

(** [dt.isoformat()] of a naive datetime *)
Definition isoformat (dt : datetime) : string :=
  let ordinal := dt / US_PER_DAY in
  let rest := dt mod US_PER_DAY in
  let '(y, m, d) := _ord2ymd ordinal in
  let secs := rest / US_PER_SECOND in
  let us := rest mod US_PER_SECOND in
  zpad 4 y ++ "-" ++ zpad 2 m ++ "-" ++ zpad 2 d ++ "T"
  ++ zpad 2 (secs / 3600) ++ ":" ++ zpad 2 (secs / 60 mod 60) ++ ":"
  ++ zpad 2 (secs mod 60)
  ++ (if us =? 0 then EmptyString else "." ++ zpad 6 us).

End Py.
Import Py.

(** ** Configuration *)

Definition CACHE_TTL_SECONDS : Z := 300.
Definition HOT_DATA_HOURS : Z := 24.
Definition MAX_CONCURRENT_QUERIES : nat := 100.

(** ** Cache strategy *)

Inductive CacheStrategy : Type := HOT | WARM | COLD.

Definition strategy_value (s : CacheStrategy) : string :=
  match s with HOT => "hot" | WARM => "warm" | COLD => "cold" end.

(** [_get_cache_strategy], with the reading of [datetime.utcnow()] passed in
    as [now]. *)
Definition _get_cache_strategy (now start_date : datetime) : CacheStrategy :=
  let age : timedelta := now - start_date in
  if age <? timedelta_of 0 HOT_DATA_HOURS then HOT
  else if age <? timedelta_of 7 0 then WARM
  else COLD.

(** ** hashlib.md5 (RFC 1321), on bytes held as integers below 256 *)

Module MD5.

Definition mask32 (x : Z) : Z := Z.land x 4294967295.
Definition add32 (x y : Z) : Z := mask32 (x + y).
Definition not32 (x : Z) : Z := Z.lxor x 4294967295.
Definition rotl32 (x : Z) (c : Z) : Z :=
  mask32 (Z.lor (Z.shiftl x c) (Z.shiftr x (32 - c))).

Definition K : list Z := [
  3614090360; 3905402710; 606105819; 3250441966;
  4118548399; 1200080426; 2821735955; 4249261313;
  1770035416; 2336552879; 4294925233; 2304563134;
  1804603682; 4254626195; 2792965006; 1236535329;
  4129170786; 3225465664; 643717713; 3921069994;
  3593408605; 38016083; 3634488961; 3889429448;
  568446438; 3275163606; 4107603335; 1163531501;
  2850285829; 4243563512; 1735328473; 2368359562;
  4294588738; 2272392833; 1839030562; 4259657740;
  2763975236; 1272893353; 4139469664; 3200236656;
  681279174; 3936430074; 3572445317; 76029189;
  3654602809; 3873151461; 530742520; 3299628645;
  4096336452; 1126891415; 2878612391; 4237533241;
  1700485571; 2399980690; 4293915773; 2240044497;
  1873313359; 4264355552; 2734768916; 1309151649;
  4149444226; 3174756917; 718787259; 3951481745 ].

Definition S : list Z := [
  7; 12; 17; 22; 7; 12; 17; 22; 7; 12; 17; 22; 7; 12; 17; 22;
  5; 9; 14; 20; 5; 9; 14; 20; 5; 9; 14; 20; 5; 9; 14; 20;
  4; 11; 16; 23; 4; 11; 16; 23; 4; 11; 16; 23; 4; 11; 16; 23;
  6; 10; 15; 21; 6; 10; 15; 21; 6; 10; 15; 21; 6; 10; 15; 21 ].

Definition state : Type := Z * Z * Z * Z.

Definition init : state := (1732584193, 4023233417, 2562383102, 271733878).

(** Little-endian 32-bit words of a block, and bytes of a word. *)
Fixpoint words (n : nat) (bs : list Z) : list Z :=
  match n, bs with
  | Datatypes.S n', b0 :: b1 :: b2 :: b3 :: rest =>
      (b0 + Z.shiftl b1 8 + Z.shiftl b2 16 + Z.shiftl b3 24) :: words n' rest
  | _, _ => []
  end.

Definition le_bytes (w : Z) : list Z :=
  [Z.land w 255; Z.land (Z.shiftr w 8) 255;
   Z.land (Z.shiftr w 16) 255; Z.land (Z.shiftr w 24) 255].

Definition round (M : list Z) (st : state) (i : nat) : state :=
  let '(a, b, c, d) := st in
  let iz := Z.of_nat i in
  let '(f, g) :=
    if iz <? 16 then (Z.lor (Z.land b c) (Z.land (not32 b) d), iz)
    else if iz <? 32 then
      (Z.lor (Z.land d b) (Z.land (not32 d) c), (5 * iz + 1) mod 16)
    else if iz <? 48 then (Z.lxor (Z.lxor b c) d, (3 * iz + 5) mod 16)
    else (Z.lxor c (Z.lor b (not32 d)), (7 * iz) mod 16) in
  let f := add32 (add32 (add32 f a) (nth i K 0)) (nth (Z.to_nat g) M 0) in
  (d, add32 b (rotl32 f (nth i S 0)), b, c).

Definition block (st : state) (bs : list Z) : state :=
  let M := words 16 bs in
  let '(a, b, c, d) := st in
  let '(a', b', c', d') := fold_left (round M) (seq 0 64) st in
  (add32 a a', add32 b b', add32 c c', add32 d d').

Definition pad (msg : list Z) : list Z :=
  let len := Z.of_nat (List.length msg) in
  let k := Z.to_nat ((55 - len) mod 64) in
  let bits := len * 8 in
  (msg ++ [128] ++ repeat 0 k
   ++ le_bytes (Z.land bits 4294967295)
   ++ le_bytes (Z.land (Z.shiftr bits 32) 4294967295))%list.

Fixpoint blocks (n : nat) (st : state) (bs : list Z) : state :=
  match n with
  | O => st
  | Datatypes.S n' => blocks n' (block st (firstn 64 bs)) (skipn 64 bs)
  end.

Definition digest (msg : list Z) : list Z :=
  let p := pad msg in
  let '(a, b, c, d) := blocks (List.length p / 64) init p in
  (le_bytes a ++ le_bytes b ++ le_bytes c ++ le_bytes d)%list.

Definition hexchar (d : Z) : ascii :=
  if d <? 10 then ascii_of_nat (48 + Z.to_nat d)
  else ascii_of_nat (87 + Z.to_nat d).

Fixpoint hex (bs : list Z) : string :=
  match bs with
  | [] => EmptyString
  | b :: rest =>
      String (hexchar (Z.shiftr b 4)) (String (hexchar (Z.land b 15)) (hex rest))
  end.

(** [hashlib.md5(msg).hexdigest()] *)
Definition hexdigest (msg : list Z) : string := hex (digest msg).

End MD5.

(** ** json.dumps of a filter mapping *)

(** Filter values: the JSON scalars a caller can put in the mapping. *)
Inductive JVal : Type :=
| JStr (s : string)
| JInt (n : Z)
| JBool (b : bool)
| JNull.

(** A Python [dict] with string keys, in insertion order (keys are unique). *)
Definition dict (V : Type) : Type := list (string * V).

Module Json.

Definition hex4 (n : Z) : string :=
  String (MD5.hexchar (Z.land (Z.shiftr n 12) 15))
    (String (MD5.hexchar (Z.land (Z.shiftr n 8) 15))
       (String (MD5.hexchar (Z.land (Z.shiftr n 4) 15))
          (String (MD5.hexchar (Z.land n 15)) EmptyString))).

Definition quote : string := String (ascii_of_nat 34) EmptyString.

(** One character of [py_encode_basestring_ascii]. *)
Definition escape_char (c : ascii) : string :=
  let n := Z.of_N (N_of_ascii c) in
  if n =? 34 then "\" ++ quote
  else if n =? 92 then "\\"
  else if n =? 10 then "\n"
  else if n =? 13 then "\r"
  else if n =? 9 then "\t"
  else if n =? 8 then "\b"
  else if n =? 12 then "\f"
  else if (n <? 32) || (126 <? n) then "\u" ++ hex4 n
  else String c EmptyString.

Fixpoint escape (s : string) : string :=
  match s with
  | EmptyString => EmptyString
  | String c rest => escape_char c ++ escape rest
  end.

Definition encode_str (s : string) : string := quote ++ escape s ++ quote.

Definition encode_val (v : JVal) : string :=
  match v with
  | JStr s => encode_str s
  | JInt n => str_int n
  | JBool true => "true"
  | JBool false => "false"
  | JNull => "null"
  end.

(** [sorted(d.items())]: insertion sort on the keys. *)
Fixpoint insert_item {V} (kv : string * V) (l : dict V) : dict V :=
  match l with
  | [] => [kv]
  | kv' :: rest =>
      if String.leb (fst kv) (fst kv') then kv :: l
      else kv' :: insert_item kv rest
  end.

Definition sorted_items {V} (d : dict V) : dict V :=
  fold_right insert_item [] d.

(** [json.dumps(d, sort_keys=True)] *)
Definition dumps_sorted (d : dict JVal) : string :=
  "{"
  ++ join ", "
       (map (fun kv => encode_str (fst kv) ++ ": " ++ encode_val (snd kv))
          (sorted_items d))
  ++ "}".

(** [s.encode()]: UTF-8 of code points below 256. *)
Fixpoint utf8 (s : string) : list Z :=
  match s with
  | EmptyString => []
  | String c rest =>
      let n := Z.of_N (N_of_ascii c) in
      if n <? 128 then n :: utf8 rest
      else Z.lor 192 (Z.shiftr n 6) :: Z.lor 128 (Z.land n 63) :: utf8 rest
  end.

End Json.

(** ** Data model *)

Record MetricQuery : Type := {
  metric_type : string;
  start_date : datetime;
  end_date : datetime;
  granularity : string;
  filters : option (dict JVal)
}.

(** One aggregated row as [_query_database] returns it. *)
Record Row : Type := {
  period : string;
  total_value : Q;
  count : Z;
  avg_value : Q
}.

Record MetricResult : Type := {
  data : list Row;
  cached : bool;
  query_time_ms : Q;
  data_freshness : option datetime
}.

(** Truth value of an optional mapping or list: [None] and the empty
    container are false. *)
Definition truthy {A} (o : option (list A)) : bool :=
  match o with
  | Some (_ :: _) => true
  | _ => false
  end.

(** [_build_cache_key] *)
Definition _build_cache_key (query : MetricQuery) : string :=
  let filter_hash :=
    match query.(filters) with
    | Some f =>
        if truthy (Some f) then
          let filter_str := Json.dumps_sorted f in
          substring 0 8 (MD5.hexdigest (Json.utf8 filter_str))
        else EmptyString
    | None => EmptyString
    end in
  "metric:" ++ query.(metric_type) ++ ":"
  ++ isoformat query.(start_date) ++ ":"
  ++ isoformat query.(end_date) ++ ":"
  ++ query.(granularity) ++ ":"
  ++ filter_hash.

(** ** Store query text *)

Definition allowed_fields : list string := ["user_id"; "tenant_id"; "event_type"].

Definition is_allowed (field : string) : bool :=
  existsb (String.eqb field) allowed_fields.

(** [_build_filter_clause] *)
Definition _build_filter_clause (filters : option (dict JVal)) : string :=
  if negb (truthy filters) then EmptyString
  else
    let clauses :=
      fold_left
        (fun clauses (item : string * JVal) =>
           let field := fst item in
           if is_allowed field
           then List.app clauses ["AND " ++ field ++ " = :" ++ field]
           else clauses)
        (match filters with Some f => f | None => [] end) [] in
    join " " clauses.

(** Bound parameter values handed to [db.execute]. *)
Inductive param : Type :=
| PStr (s : string)
| PDate (d : datetime)
| PVal (v : JVal).

(** [d[k] = v] on an insertion-ordered mapping. *)
Fixpoint dict_set {V} (k : string) (v : V) (d : dict V) : dict V :=
  match d with
  | [] => [(k, v)]
  | (k', v') :: rest =>
      if String.eqb k k' then (k, v) :: rest
      else (k', v') :: dict_set k v rest
  end.

(** [{**base, **extra}] *)
Definition dict_update {V} (base extra : dict V) : dict V :=
  fold_left (fun d kv => dict_set (fst kv) (snd kv) d) extra base.

Definition nl : string := String (ascii_of_nat 10) EmptyString.
Definition star : string := String (ascii_of_nat 42) EmptyString.

(** The statement text built by [_query_database]. *)
Definition _query_database_sql (query : MetricQuery) : string :=
  let view_name := "mv_metrics_" ++ query.(metric_type) in
  nl
  ++ "            SELECT " ++ nl
  ++ "                date_trunc(:granularity, timestamp) as period," ++ nl
  ++ "                SUM(value) as total_value," ++ nl
  ++ "                COUNT(" ++ star ++ ") as count," ++ nl
  ++ "                AVG(value) as avg_value" ++ nl
  ++ "            FROM " ++ view_name ++ nl
  ++ "            WHERE " ++ nl
  ++ "                timestamp >= :start_date" ++ nl
  ++ "                AND timestamp < :end_date" ++ nl
  ++ "                " ++ _build_filter_clause query.(filters) ++ nl
  ++ "            GROUP BY period" ++ nl
  ++ "            ORDER BY period" ++ nl
  ++ "        ".

(** The bound parameters built by [_query_database]. *)
Definition _query_database_params (query : MetricQuery) : dict param :=
  dict_update
    [("granularity", PStr query.(granularity));
     ("start_date", PDate query.(start_date));
     ("end_date", PDate query.(end_date))]
    (map (fun kv => (fst kv, PVal (snd kv)))
       (match query.(filters) with Some f => f | None => [] end)).

(** ** Effects *)

(** An instance of [Exception]: its class name and [str(e)]. *)
Inductive exn : Type := Exn (cls : string) (msg : string).

Definition str_exn (e : exn) : string := let 'Exn _ msg := e in msg.

(** A structlog call. *)
Inductive log_event : Type :=
| LogInfo (event metric strategy : string) (query_time_ms : Q)
| LogWarning (event error : string)
| LogError (event : string) (query_index : nat) (error : string).

(** What a Redis key holds: the JSON text of a row list, or bytes that
    [json.loads] rejects. *)
Inductive bytes : Type :=
| JsonRows (rows : list Row)
| Garbled (s : string).

Definition bytes_truthy (b : bytes) : bool :=
  match b with
  | JsonRows _ => true
  | Garbled s => negb (String.eqb s EmptyString)
  end.

(** A row of the materialized view as the driver returns it. *)
Record DbRow : Type := {
  row_period : datetime;
  row_total_value : Q;
  row_count : Z;
  row_avg_value : Q
}.

(** The operations a coroutine of the service performs on its collaborators.
    The awaited calls that may raise carry the exception in their answer. *)
Inductive op : Type -> Type :=
| UtcNow : op datetime
| RedisGet (key : string) : op (exn + option bytes)
| RedisSetex (key : string) (ttl : Z) (value : bytes) : op (exn + unit)
| DbExecute (sql : string) (params : dict param) : op (exn + list DbRow)
| DbFirst (sql : string) : op (exn + option datetime)
| SemAcquire : op unit
| SemRelease : op unit
| Log (e : log_event) : op unit.

(** A coroutine: a finite tree of operations ending in a value or an
    exception. *)
Inductive coro (A : Type) : Type :=
| Ret (a : A)
| Raise (e : exn)
| Vis {X : Type} (o : op X) (k : X -> coro A).

Arguments Ret {A} a.
Arguments Raise {A} e.
Arguments Vis {A X} o k.

Fixpoint bind {A B} (c : coro A) (f : A -> coro B) : coro B :=
  match c with
  | Ret a => f a
  | Raise e => Raise e
  | Vis o k => Vis o (fun x => bind (k x) f)
  end.

Notation "x <- c ;; k" := (bind c (fun x => k))
  (at level 61, c at next level, right associativity).
Notation "c ;;; k" := (bind c (fun _ => k))
  (at level 61, right associativity).

(** [try: c  except Exception as e: h e] *)
Fixpoint try_except {A} (c : coro A) (h : exn -> coro A) : coro A :=
  match c with
  | Ret a => Ret a
  | Raise e => h e
  | Vis o k => Vis o (fun x => try_except (k x) h)
  end.

(** [try: c  finally: f] *)
Fixpoint finally {A} (c : coro A) (f : coro unit) : coro A :=
  match c with
  | Ret a => f ;;; Ret a
  | Raise e => f ;;; Raise e
  | Vis o k => Vis o (fun x => finally (k x) f)
  end.

Definition perform {X} (o : op X) : coro X := Vis o Ret.

(** [await call], re-raising the exception the call answers with. *)
Definition await {X} (o : op (exn + X)) : coro X :=
  Vis o (fun r => match r with inl e => Raise e | inr x => Ret x end).

(** [async with self._query_semaphore: body] *)
Definition async_with_semaphore {A} (body : coro A) : coro A :=
  perform SemAcquire ;;; finally body (perform SemRelease).

Definition json_dumps (rows : list Row) : bytes := JsonRows rows.

Definition json_loads (b : bytes) : coro (list Row) :=
  match b with
  | JsonRows rows => Ret rows
  | Garbled _ => Raise (Exn "JSONDecodeError" "Expecting value")
  end.

(** ** The service *)

(** [_get_from_cache] *)
Definition _get_from_cache (key : string) : coro (option (list Row)) :=
  try_except
    (o <- await (RedisGet key) ;;
     match o with
     | Some data =>
         if bytes_truthy data then rows <- json_loads data ;; Ret (Some rows)
         else Ret None
     | None => Ret None
     end)
    (fun e => perform (Log (LogWarning "cache_read_error" (str_exn e))) ;;; Ret None).

(** [_set_cache] *)
Definition _set_cache (key : string) (data : list Row) (ttl : Z) : coro unit :=
  try_except
    (await (RedisSetex key ttl (json_dumps data)))
    (fun e => perform (Log (LogWarning "cache_write_error" (str_exn e)))).

Definition row_to_dict (row : DbRow) : Row :=
  {| period := isoformat row.(row_period);
     total_value := row.(row_total_value);
     count := row.(row_count);
     avg_value := row.(row_avg_value) |}.

(** [_query_database] *)
Definition _query_database (query : MetricQuery) : coro (list Row) :=
  result <- await (DbExecute (_query_database_sql query)
                     (_query_database_params query)) ;;
  Ret (map row_to_dict result).

(** [_get_materialized_view_freshness] *)
Definition _get_materialized_view_freshness : coro datetime :=
  row <- await (DbFirst
                  "SELECT last_refresh FROM mv_metadata WHERE view_name = 'metrics'") ;;
  match row with
  | Some last_refresh => Ret last_refresh
  | None => perform UtcNow
  end.

(** [get_metric] *)
Definition get_metric (query : MetricQuery) : coro MetricResult :=
  start_time <- perform UtcNow ;;
  now <- perform UtcNow ;;
  let strategy := _get_cache_strategy now query.(start_date) in
  let cache_key := _build_cache_key query in
  hit <- match strategy with
         | HOT | WARM =>
             cached_data <- _get_from_cache cache_key ;;
             if truthy cached_data then
               now <- perform UtcNow ;;
               let query_time := total_ms (now - start_time) in
               perform (Log (LogInfo "cache_hit" query.(metric_type)
                               (strategy_value strategy) query_time)) ;;;
               Ret (Some {| data := match cached_data with
                                    | Some rows => rows
                                    | None => []
                                    end;
                            cached := true;
                            query_time_ms := query_time;
                            data_freshness := None |})
             else Ret None
         | COLD => Ret None
         end ;;
  match hit with
  | Some result => Ret result
  | None =>
      data <- async_with_semaphore (_query_database query) ;;
      match strategy with
      | HOT => _set_cache cache_key data CACHE_TTL_SECONDS
      | WARM => _set_cache cache_key data (CACHE_TTL_SECONDS * 2)
      | COLD => Ret tt
      end ;;;
      now <- perform UtcNow ;;
      let query_time := total_ms (now - start_time) in
      perform (Log (LogInfo "cache_miss" query.(metric_type)
                      (strategy_value strategy) query_time)) ;;;
      freshness <- _get_materialized_view_freshness ;;
      Ret {| data := data;
             cached := false;
             query_time_ms := query_time;
             data_freshness := Some freshness |}
  end.

(** ** The collaborators and the event loop *)

(** An I/O call that reached a collaborator. *)
Inductive io_event : Type :=
| IoCacheGet (key : string)
| IoCacheSet (key : string) (ttl : Z)
| IoStore (sql : string).

(** The state the service runs in: the clock, the content of Redis (value and
    expiry instant per key, latest write first), the value of
    [_query_semaphore], what was logged and the I/O calls made. *)
Record World : Type := {
  clock : datetime;
  redis : list (string * (bytes * datetime));
  permits : nat;
  log : list log_event;
  io : list io_event
}.

(** The behaviour of the collaborators: whether a Redis call fails at an
    instant, and what the store answers to a statement at an instant. *)
Record Env : Type := {
  cache_get_fault : datetime -> string -> option exn;
  cache_set_fault : datetime -> string -> option exn;
  db_execute : datetime -> string -> dict param -> exn + list DbRow;
  db_first : datetime -> string -> exn + option datetime
}.

Fixpoint redis_lookup (now : datetime) (key : string)
  (store : list (string * (bytes * datetime))) : option bytes :=
  match store with
  | [] => None
  | (k, (v, expiry)) :: rest =>
      if String.eqb key k then (if now <? expiry then Some v else None)
      else redis_lookup now key rest
  end.

Definition with_io (w : World) (e : io_event) : World :=
  {| clock := w.(clock); redis := w.(redis); permits := w.(permits);
     log := w.(log); io := (w.(io) ++ [e])%list |}.

Definition with_redis (w : World) (r : list (string * (bytes * datetime))) : World :=
  {| clock := w.(clock); redis := r; permits := w.(permits);
     log := w.(log); io := w.(io) |}.

Definition with_permits (w : World) (n : nat) : World :=
  {| clock := w.(clock); redis := w.(redis); permits := n;
     log := w.(log); io := w.(io) |}.

Definition with_log (w : World) (e : log_event) : World :=
  {| clock := w.(clock); redis := w.(redis); permits := w.(permits);
     log := (w.(log) ++ [e])%list; io := w.(io) |}.

Definition advance (w : World) (us : N) : World :=
  {| clock := w.(clock) + Z.of_N us; redis := w.(redis);
     permits := w.(permits); log := w.(log); io := w.(io) |}.

(** One operation against the world; [None] when the operation has to wait
    (a semaphore without a free permit). *)
Definition handle (env : Env) (w : World) {X} (o : op X) : option (World * X) :=
  match o in op X return option (World * X) with
  | UtcNow => Some (w, w.(clock))
  | RedisGet key =>
      let w' := with_io w (IoCacheGet key) in
      match env.(cache_get_fault) w.(clock) key with
      | Some e => Some (w', inl e)
      | None => Some (w', inr (redis_lookup w.(clock) key w.(redis)))
      end
  | RedisSetex key ttl value =>
      let w' := with_io w (IoCacheSet key ttl) in
      match env.(cache_set_fault) w.(clock) key with
      | Some e => Some (w', inl e)
      | None =>
          Some (with_redis w'
                  ((key, (value, w.(clock) + ttl * US_PER_SECOND)) :: w.(redis)),
                inr tt)
      end
  | DbExecute sql params =>
      Some (with_io w (IoStore sql), env.(db_execute) w.(clock) sql params)
  | DbFirst sql =>
      Some (with_io w (IoStore sql), env.(db_first) w.(clock) sql)
  | SemAcquire =>
      match w.(permits) with
      | O => None
      | S n => Some (with_permits w n, tt)
      end
  | SemRelease => Some (with_permits w (S w.(permits)), tt)
  | Log e => Some (with_log w e, tt)
  end.

(** A coroutine run without interruption until it ends or has to wait. *)
Fixpoint run (env : Env) (w : World) {A} (c : coro A) : World * coro A :=
  match c with
  | Vis o k =>
      match handle env w o with
      | Some (w', x) => run env w' (k x)
      | None => (w, c)
      end
  | _ => (w, c)
  end.

(** A task of the event loop: the rest of its coroutine, and the number of
    permits it holds (bookkeeping for the proofs; the code has no such
    counter). *)
Record task : Type := {
  code : coro MetricResult;
  held : nat
}.

Definition spawn (c : coro MetricResult) : task := {| code := c; held := 0 |}.

Definition held_after {X} (o : op X) (h : nat) : nat :=
  match o with
  | SemAcquire => S h
  | SemRelease => Nat.pred h
  | _ => h
  end.

Definition step_task (env : Env) (w : World) (t : task) : option (World * task) :=
  match t.(code) with
  | Vis o k =>
      match handle env w o with
      | Some (w', x) =>
          Some (w', {| code := k x; held := held_after o t.(held) |})
      | None => None
      end
  | _ => None
  end.

(** What the event loop does next: run one operation of task [i], or let
    time pass. *)
Inductive action : Type :=
| Run (i : nat)
| Tick (us : N).

Fixpoint set_nth {A} (i : nat) (x : A) (l : list A) : list A :=
  match l, i with
  | [], _ => []
  | _ :: rest, O => x :: rest
  | y :: rest, S i' => y :: set_nth i' x rest
  end.

Definition step_pool (env : Env) (s : World * list task) (a : action)
  : World * list task :=
  let '(w, pool) := s in
  match a with
  | Tick us => (advance w us, pool)
  | Run i =>
      match nth_error pool i with
      | Some t =>
          match step_task env w t with
          | Some (w', t') => (w', set_nth i t' pool)
          | None => s
          end
      | None => s
      end
  end.

Definition run_pool (env : Env) (sched : list action) (s : World * list task)
  : World * list task :=
  fold_left (step_pool env) sched s.

(** How a task ended. *)
Inductive outcome : Type :=
| Returned (r : MetricResult)
| Raised (e : exn).

Definition outcome_of (t : task) : option outcome :=
  match t.(code) with
  | Ret r => Some (Returned r)
  | Raise e => Some (Raised e)
  | Vis _ _ => None
  end.

(** [await asyncio.gather] of the tasks with [return_exceptions=True], once every task
    has ended: the outcomes, in the order of the tasks. *)
Fixpoint gather (pool : list task) : option (list outcome) :=
  match pool with
  | [] => Some []
  | t :: rest =>
      match outcome_of t, gather rest with
      | Some o, Some os => Some (o :: os)
      | _, _ => None
      end
  end.

Definition failed_result : MetricResult :=
  {| data := []; cached := false; query_time_ms := 0%Q; data_freshness := None |}.

(** The loop of [batch_get_metrics] over [enumerate(results)]. *)
Fixpoint process_results (i : nat) (results : list outcome)
  (processed_results : list MetricResult) : coro (list MetricResult) :=
  match results with
  | [] => Ret processed_results
  | result :: rest =>
      match result with
      | Raised e =>
          perform (Log (LogError "batch_query_error" i (str_exn e))) ;;;
          process_results (S i) rest (processed_results ++ [failed_result])%list
      | Returned r =>
          process_results (S i) rest (processed_results ++ [r])%list
      end
  end.

(** [batch_get_metrics] under a schedule of the event loop: [None] while some
    task has not ended. *)
Definition batch_get_metrics (env : Env) (sched : list action) (w : World)
  (queries : list MetricQuery) : option (World * coro (list MetricResult)) :=
  let tasks := map (fun query => spawn (get_metric query)) queries in
  let '(w1, pool) := run_pool env sched (w, tasks) in
  match gather pool with
  | Some results => Some (run env w1 (process_results 0 results []))
  | None => None
  end.

(** [AnalyticsService(db_pool, redis_pool, max_concurrent)] at instant
    [now], over an empty cache. *)
Definition init_world (now : datetime) (max_concurrent : nat) : World :=
  {| clock := now; redis := []; permits := max_concurrent; log := []; io := [] |}.

(** ** Vocabulary of the statements *)


Definition with_filters (q : MetricQuery) (f : option (dict JVal)) : MetricQuery :=
  {| metric_type := q.(metric_type); start_date := q.(start_date);
     end_date := q.(end_date); granularity := q.(granularity); filters := f |}.




Definition HOURS_24 : timedelta := 86400000000.
Definition DAYS_7 : timedelta := 604800000000.

(** The coroutine has ended. *)
Definition finished {A} (c : coro A) : bool :=
  match c with
  | Vis _ _ => false
  | _ => true
  end.

(** Whether, holding [h] permits, a coroutine may perform [o]: it takes a
    permit only when it holds none and gives back only one it holds. *)
Definition sem_ok {X} (o : op X) (h : nat) : Prop :=
  match o with
  | SemAcquire => h = 0%nat
  | SemRelease => h = 1%nat
  | _ => True
  end.

(** Scoped use of the semaphore: along every path of the coroutine the
    permit is taken and given back in turn, and none is held at the end. *)
Fixpoint scoped {A} (h : nat) (c : coro A) : Prop :=
  match c with
  | Ret _ => h = 0%nat
  | Raise _ => h = 0%nat
  | Vis o k => sem_ok o h /\ forall x, scoped (held_after o h) (k x)
  end.

Definition task_scoped (t : task) : Prop := scoped t.(held) t.(code).

(** The exception, if any, that a store call answered with. *)
Definition store_error {X} (o : op X) : X -> option exn :=
  match o in op X return X -> option exn with
  | DbExecute _ _ => fun x => match x with inl e => Some e | inr _ => None end
  | DbFirst _ => fun x => match x with inl e => Some e | inr _ => None end
  | _ => fun _ => None
  end.

(** Every exception the coroutine raises is one of [seen] or one that a
    store call answered with on the way. *)
Fixpoint raises_from_store {A} (seen : list exn) (c : coro A) : Prop :=
  match c with
  | Ret _ => True
  | Raise e => In e seen
  | Vis o k =>
      forall x,
        raises_from_store
          (match store_error o x with Some e => e :: seen | None => seen end)
          (k x)
  end.

(** The store answers every call of the run without an exception. *)
Definition store_answers (env : Env) : Prop :=
  (forall now sql params, exists rows, env.(db_execute) now sql params = inr rows)
  /\ (forall now sql, exists row, env.(db_first) now sql = inr row).

Definition total_held (pool : list task) : nat :=
  fold_right (fun t n => (t.(held) + n)%nat) 0%nat pool.

(** The first I/O call of [get_metric] started at instant [now]. *)
Definition first_io (now : datetime) (q : MetricQuery) : io_event :=
  match _get_cache_strategy now q.(start_date) with
  | COLD => IoStore (_query_database_sql q)
  | _ => IoCacheGet (_build_cache_key q)
  end.

(** The coroutine is suspended on [_query_semaphore.acquire()]. *)
Definition at_gate {A} (c : coro A) : bool :=
  match c with
  | Vis SemAcquire _ => true
  | _ => false
  end.

(** The time a schedule lets pass. *)
Definition elapsed (sched : list action) : N :=
  fold_right (fun a n => match a with Tick us => (us + n)%N | Run _ => n end)
    0%N sched.

(** The schedule only lets time pass and polls task [i]. *)
Definition only_waits (i : nat) (sched : list action) : Prop :=
  Forall (fun a => match a with Run j => j = i | Tick _ => True end) sched.

(** [descends c c']: [c'] is what is left of the coroutine [c] after some of
    its operations were answered. *)
Inductive descends {A} : coro A -> coro A -> Prop :=
| descends_here (c : coro A) : descends c c
| descends_step {X} (o : op X) (k : X -> coro A) (x : X) (c' : coro A) :
    descends (k x) c' -> descends (Vis o k) c'.

(** Task [i] of the pool is the call for query [i]. *)
Definition tasks_of (queries : list MetricQuery) (pool : list task) : Prop :=
  Forall2 (fun query t => descends (get_metric query) t.(code)) queries pool.

(** The slot [batch_get_metrics] keeps for an outcome. *)
Definition slot_of (o : outcome) : MetricResult :=
  match o with
  | Returned r => r
  | Raised _ => failed_result
  end.

Definition batch_tasks (queries : list MetricQuery) : list task :=
  map (fun query => spawn (get_metric query)) queries.

(** ** Sample data *)

Definition t0 : datetime := mk_datetime 2024 5 17 12 0 0 0.

Definition q_active_users : MetricQuery :=
  {| metric_type := "active_users";
     start_date := mk_datetime 2024 5 17 10 0 0 0;
     end_date := mk_datetime 2024 5 17 11 0 0 0;
     granularity := "hour";
     filters := None |}.

Definition q_foo : MetricQuery :=
  with_filters q_active_users (Some [("foo", JStr "x")]).


Definition q_cold : MetricQuery :=
  {| metric_type := "active_users";
     start_date := mk_datetime 2024 4 27 12 0 0 0;
     end_date := mk_datetime 2024 4 28 12 0 0 0;
     granularity := "day";
     filters := None |}.

(** A malformed query: empty range and a metric that has no view. *)
Definition q_malformed : MetricQuery :=
  {| metric_type := "no_such_metric";
     start_date := mk_datetime 2024 5 17 11 0 0 0;
     end_date := mk_datetime 2024 5 17 11 0 0 0;
     granularity := "hour";
     filters := None |}.

(** A query over an empty range ([start_date = end_date]). *)
Definition q_empty_range : MetricQuery :=
  {| metric_type := "active_users";
     start_date := mk_datetime 2024 5 17 11 0 0 0;
     end_date := mk_datetime 2024 5 17 11 0 0 0;
     granularity := "hour";
     filters := None |}.

Definition sample_rows : list DbRow :=
  [ {| row_period := mk_datetime 2024 5 17 10 0 0 0;
       row_total_value := 120%Q; row_count := 3; row_avg_value := 40%Q |} ].

Definition last_refresh0 : datetime := mk_datetime 2024 5 17 11 55 0 0.

(** Healthy collaborators; the view holds one row. *)
Definition env_ok : Env :=
  {| cache_get_fault := fun _ _ => None;
     cache_set_fault := fun _ _ => None;
     db_execute := fun _ _ _ => inr sample_rows;
     db_first := fun _ _ => inr (Some last_refresh0) |}.

(** Healthy collaborators; the view holds no row for the range. *)
Definition env_no_rows : Env :=
  {| cache_get_fault := fun _ _ => None;
     cache_set_fault := fun _ _ => None;
     db_execute := fun _ _ _ => inr [];
     db_first := fun _ _ => inr (Some last_refresh0) |}.

(** Redis unreachable, store healthy. *)
Definition env_cache_down : Env :=
  {| cache_get_fault := fun _ _ => Some (Exn "ConnectionError" "redis down");
     cache_set_fault := fun _ _ => Some (Exn "ConnectionError" "redis down");
     db_execute := fun _ _ _ => inr sample_rows;
     db_first := fun _ _ => inr (Some last_refresh0) |}.

(** Store unreachable. *)
Definition env_store_down : Env :=
  {| cache_get_fault := fun _ _ => None;
     cache_set_fault := fun _ _ => None;
     db_execute := fun _ _ _ => inl (Exn "OperationalError" "connection refused");
     db_first := fun _ _ => inl (Exn "OperationalError" "connection refused") |}.

(** The store has no view for [no_such_metric]; everything else is healthy. *)
Definition env_missing_view : Env :=
  {| cache_get_fault := fun _ _ => None;
     cache_set_fault := fun _ _ => None;
     db_execute := fun _ sql _ =>
       if String.eqb sql (_query_database_sql q_malformed)
       then inl (Exn "ProgrammingError" "relation does not exist")
       else inr sample_rows;
     db_first := fun _ _ => inr (Some last_refresh0) |}.

(** Three calls taking turns, one operation at a time. *)
Definition round_robin : list action :=
  List.concat (repeat [Run 0; Run 1; Run 2; Tick 1000]%list 12).

(** The call starts, waits five seconds for the store, and learns of the
    failure. *)
Definition slow_failure : list action :=
  [Run 0; Run 0; Run 0; Tick 5000000; Run 0; Run 0].

(** A hot query whose range holds no row: the first call, and the same call
    one second later. *)
Definition first_call : World * coro MetricResult :=
  run env_no_rows (init_world t0 100) (get_metric q_active_users).

Definition second_call : World * coro MetricResult :=
  run env_no_rows (advance (fst first_call) 1000000) (get_metric q_active_users).

(** The view answers, the refresh metadata cannot be read. *)
Definition env_freshness_down : Env :=
  {| cache_get_fault := fun _ _ => None;
     cache_set_fault := fun _ _ => None;
     db_execute := fun _ _ _ => inr sample_rows;
     db_first := fun _ _ => inl (Exn "OperationalError" "statement timeout") |}.

(** A hot query answered with a row: the world after the first call. *)
Definition first_ok_call : World * coro MetricResult :=
  run env_ok (init_world t0 100) (get_metric q_active_users).

Definition YEAR_US : N := 31536000000000.

(** Two cold queries on a service with a single permit: the first call takes
    the permit and awaits the store, the second reaches the gate. *)
Definition gate_state : World * list task :=
  run_pool env_ok [Run 0; Run 0; Run 0; Run 1; Run 1]
    (init_world t0 1, map (fun query => spawn (get_metric query)) [q_cold; q_cold]).

(** ** Vocabulary of the further properties *)

(** Every value the coroutine can return satisfies [P]. *)
Fixpoint returns {A} (P : A -> Prop) (c : coro A) : Prop :=
  match c with
  | Ret a => P a
  | Raise _ => True
  | Vis _ k => forall x, returns P (k x)
  end.

(** The two shapes of a result: served from the cache (rows, no freshness)
    or from the store (a freshness instant). *)
Definition result_shape (r : MetricResult) : Prop :=
  (r.(cached) = true /\ r.(data) <> [] /\ r.(data_freshness) = None)
  \/ (r.(cached) = false /\ r.(data_freshness) <> None).

Definition is_store_query {X} (o : op X) : bool :=
  match o with
  | DbExecute _ _ => true
  | _ => false
  end.

(** The store query is only made while holding a permit. *)
Fixpoint gated {A} (h : nat) (c : coro A) : Prop :=
  match c with
  | Vis o k =>
      (is_store_query o = true -> h = 1%nat)
      /\ forall x, gated (held_after o h) (k x)
  | _ => True
  end.

Definition task_gated (t : task) : Prop := gated t.(held) t.(code).

(** The task awaits the answer of its store query. *)
Definition at_store (t : task) : bool :=
  match t.(code) with
  | Vis o _ => is_store_query o
  | _ => false
  end.

(** The number of store queries in flight. *)
Definition in_flight (pool : list task) : nat :=
  List.length (filter at_store pool).

(** The rows the cache serves to a call that starts in [w], if any: the
    strategy is not COLD, the read succeeds and finds a live entry that
    holds at least one row. *)
Definition cache_serves (env : Env) (w : World) (q : MetricQuery)
  : option (list Row) :=
  match _get_cache_strategy w.(clock) q.(start_date) with
  | COLD => None
  | _ =>
      match env.(cache_get_fault) w.(clock) (_build_cache_key q) with
      | Some _ => None
      | None =>
          match redis_lookup w.(clock) (_build_cache_key q) w.(redis) with
          | Some (JsonRows (row :: rows)) => Some (row :: rows)
          | _ => None
          end
      end
  end.

(** Order of the items of a mapping by key, as [sort_keys=True] sorts. *)
Definition le_key {V} (x y : string * V) : Prop :=
  String.leb (fst x) (fst y) = true.

(** [d.get(k)] *)
Fixpoint dict_get {V} (k : string) (d : dict V) : option V :=
  match d with
  | [] => None
  | (k', v) :: rest => if String.eqb k k' then Some v else dict_get k rest
  end.

Definition fixed_params : list string := ["granularity"; "start_date"; "end_date"].

(** HOT before WARM before COLD. *)
Definition rank (s : CacheStrategy) : nat :=
  match s with HOT => 0 | WARM => 1 | COLD => 2 end.

(** The TTL [get_metric] caches with, per strategy. *)
Definition ttl_of (s : CacheStrategy) : option Z :=
  match s with
  | HOT => Some CACHE_TTL_SECONDS
  | WARM => Some (CACHE_TTL_SECONDS * 2)
  | COLD => None
  end.

(** The error entries the loop of [batch_get_metrics] logs. *)
Fixpoint error_events (i : nat) (results : list outcome) : list log_event :=
  match results with
  | [] => []
  | Raised e :: rest =>
      LogError "batch_query_error" i (str_exn e) :: error_events (S i) rest
  | Returned _ :: rest => error_events (S i) rest
  end.

(** The call raised. *)
Definition raised (o : outcome) : bool :=
  match o with
  | Raised _ => true
  | Returned _ => false
  end.

Definition FRESHNESS_SQL : string :=
  "SELECT last_refresh FROM mv_metadata WHERE view_name = 'metrics'".

(** ** Proof automation *)

(** Case analysis along the paths of a coroutine tree. *)
Ltac walk_tree :=
  repeat first
    [ progress cbn [scoped raises_from_store bind try_except finally perform
                    await async_with_semaphore json_loads sem_ok held_after
                    store_error Nat.pred]
    | match goal with
      | |- _ /\ _ => split
      | |- forall _, _ => intro
      | |- True => exact I
      | |- ?x = ?x => reflexivity
      | |- In ?e (?e :: _) => left; reflexivity
      | x : (_ + _)%type |- _ => destruct x
      | x : option _ |- _ => destruct x
      | x : bytes |- _ => destruct x
      | |- context [if ?b then _ else _] => destruct b
      | |- context [match ?s with HOT => _ | WARM => _ | COLD => _ end] =>
          destruct s
      end ].

(** Symbolic execution of [run]. *)
Ltac run_tree :=
  repeat first
    [ progress cbn [run handle bind try_except finally perform await
                    async_with_semaphore json_loads json_dumps fst snd
                    with_io with_redis with_permits with_log
                    clock redis permits log io truthy bytes_truthy negb]
    | match goal with
      | H : ?x = _ |- context [match ?x with _ => _ end] => rewrite H
      end ].

Ltac run_cases :=
  repeat first
    [ progress run_tree
    | match goal with
      | |- context [match cache_get_fault ?e ?t ?k with _ => _ end] =>
          destruct (cache_get_fault e t k)
      | |- context [match cache_set_fault ?e ?t ?k with _ => _ end] =>
          destruct (cache_set_fault e t k)
      | |- context [match redis_lookup ?t ?k ?r with _ => _ end] =>
          destruct (redis_lookup t k r) as [[[| ? ?] | ?] |]
      | |- context [match db_execute ?e ?t ?s ?p with _ => _ end] =>
          destruct (db_execute e t s p)
      | |- context [match db_first ?e ?t ?s with _ => _ end] =>
          destruct (db_first e t s) as [? | [? |]]
      | |- context [match permits ?w with _ => _ end] => destruct (permits w)
      | |- context [if negb ?b then _ else _] => destruct b eqn:?
      end ].

(** Case analysis along the paths of a tree, for the further properties. *)
Ltac walk_leaves :=
  repeat first
    [ match goal with
      | |- context [truthy (Some ?l)] => is_var l; destruct l; cbn [truthy]
      | |- context [truthy ?o] =>
          is_var o; destruct o as [[| ? ?] |]; cbn [truthy]
      | |- context [truthy None] => cbn [truthy]
      end
    | progress cbn [returns gated bind try_except finally perform
                    await async_with_semaphore json_loads held_after
                    is_store_query app Nat.pred]
    | match goal with
      | |- _ /\ _ => split
      | |- forall _, _ => intro
      | |- True => exact I
      | H : false = true |- _ => discriminate H
      | |- ?x = ?x => reflexivity
      | x : (_ + _)%type |- _ => destruct x
      | x : option _ |- _ => destruct x
      | x : bytes |- _ => destruct x
      | |- context [if ?b then _ else _] => destruct b
      | |- context [match ?s with HOT => _ | WARM => _ | COLD => _ end] =>
          destruct s
      end ].

(** Symbolic execution of the event loop. *)
Ltac step_tree :=
  repeat first
    [ progress cbn [run_pool fold_left step_pool nth_error batch_tasks map spawn
                    step_task code held handle set_nth held_after
                    bind try_except finally perform await
                    async_with_semaphore fst snd
                    with_io with_redis with_permits with_log
                    clock redis permits log io truthy]
    | match goal with
      | H : ?x = _ |- context [match ?x with _ => _ end] => rewrite H
      end ].

(** * Properties *)

Example iso1: isoformat (mk_datetime 2024 2 29 13 5 9 0) = "2024-02-29T13:05:09".
Proof. vm_compute. reflexivity. Qed.
Example iso2 : isoformat (mk_datetime 1999 12 31 23 59 59 120) = "1999-12-31T23:59:59.000120".
Proof. vm_compute. reflexivity. Qed.
Example iso3 : isoformat (mk_datetime 2025 1 1 0 0 0 0) = "2025-01-01T00:00:00".
Proof. vm_compute. reflexivity. Qed.
Example iso4 : isoformat (mk_datetime 9999 12 31 23 59 59 999999) = "9999-12-31T23:59:59.999999".
Proof. vm_compute. reflexivity. Qed.
Example iso5 : isoformat (mk_datetime 1 1 1 0 0 0 0) = "0001-01-01T00:00:00".
Proof. vm_compute. reflexivity. Qed.
Example iso6 : isoformat (mk_datetime 2000 12 31 0 0 0 0) = "2000-12-31T00:00:00".
Proof. vm_compute. reflexivity. Qed.
Example iso7 : isoformat (mk_datetime 2100 3 1 0 0 0 0) = "2100-03-01T00:00:00".
Proof. vm_compute. reflexivity. Qed.
Example ord1 : _ymd2ord 2024 2 29 = 738945.
Proof. reflexivity. Qed.
Example md5_empty : MD5.hexdigest [] = "d41d8cd98f00b204e9800998ecf8427e".
Proof. vm_compute. reflexivity. Qed.
Example md5_abc : MD5.hexdigest (Json.utf8 "abc") = "900150983cd24fb0d6963f7d28e17f72".
Proof. vm_compute. reflexivity. Qed.
Example md5_a100 : MD5.hexdigest (repeat 97 100) = "36a92cc94a9e0fa21f625f8bfb007adf".
Proof. vm_compute. reflexivity. Qed.
Example md5_dumps1 :
  MD5.hexdigest (Json.utf8 (Json.dumps_sorted [("user_id", JInt 42); ("tenant_id", JStr "t1")]))
  = "ae94a6a08545f11b24741b12b5a7f18e".
Proof. vm_compute. reflexivity. Qed.
Example md5_dumps2 :
  MD5.hexdigest (Json.utf8 (Json.dumps_sorted [("user_id", JInt (-7))]))
  = "86e974c9b1110074fadfe543b319cafd".
Proof. vm_compute. reflexivity. Qed.

Example md5_dumps_escapes :
  MD5.hexdigest
    (Json.utf8
       (Json.dumps_sorted
          [("b", JBool true); ("a", JNull);
           ("c", JStr ("q" ++ Json.quote ++ "\" ++ nl
                       ++ String (ascii_of_nat 1)
                            (String (ascii_of_nat 127)
                               (String (ascii_of_nat 233) EmptyString))))]))
  = "74d307a9702592b2cd2f844f354f4834".
Proof. vm_compute. reflexivity. Qed.

Example params_follow_the_mapping :
  _query_database_params
    (with_filters q_active_users
       (Some [("tenant_id", JStr "t1"); ("foo", JStr "x");
              ("end_date", JStr "y")]))
  = [("granularity", PStr "hour");
     ("start_date", PDate (mk_datetime 2024 5 17 10 0 0 0));
     ("end_date", PVal (JStr "y"));
     ("tenant_id", PVal (JStr "t1"));
     ("foo", PVal (JStr "x"))].
Proof. vm_compute. reflexivity. Qed.

Example key_plain :
  _build_cache_key q_active_users
  = "metric:active_users:2024-05-17T10:00:00:2024-05-17T11:00:00:hour:".
Proof. vm_compute. reflexivity. Qed.

Example key_foo :
  _build_cache_key q_foo
  = "metric:active_users:2024-05-17T10:00:00:2024-05-17T11:00:00:hour:4fb4046c".
Proof. vm_compute. reflexivity. Qed.

Example clause_mixed :
  _build_filter_clause
    (Some [("tenant_id", JStr "t1"); ("foo", JStr "x"); ("user_id", JInt 42)])
  = "AND tenant_id = :tenant_id AND user_id = :user_id".
Proof. vm_compute. reflexivity. Qed.

(** ** Cache strategy *)

(** C2. [_get_cache_strategy] is a total function of the age
    [now - start_date]: HOT exactly when the age is below 24 hours, WARM
    exactly when it is at least 24 hours and below 7 days (so an age of
    exactly 24 hours is WARM), COLD exactly when it is at least 7 days. *)
Theorem cache_strategy_by_age :
  forall now start_date : datetime,
    let age := now - start_date in
    (_get_cache_strategy now start_date = HOT <-> age < HOURS_24)
    /\ (_get_cache_strategy now start_date = WARM
        <-> HOURS_24 <= age < DAYS_7)
    /\ (_get_cache_strategy now start_date = COLD <-> DAYS_7 <= age)
    /\ _get_cache_strategy (start_date + HOURS_24) start_date = WARM.
Proof.
  intros now start_date age.
  assert (Hb : _get_cache_strategy (start_date + HOURS_24) start_date = WARM).
  { unfold _get_cache_strategy.
    replace (start_date + HOURS_24 - start_date) with HOURS_24 by lia.
    reflexivity. }
  unfold _get_cache_strategy. fold age.
  change (timedelta_of 0 HOT_DATA_HOURS) with HOURS_24.
  change (timedelta_of 7 0) with DAYS_7.
  destruct (Z.ltb_spec age HOURS_24) as [H1 | H1];
    [ | destruct (Z.ltb_spec age DAYS_7) as [H2 | H2] ];
    unfold HOURS_24, DAYS_7 in *;
    repeat split; intros; try discriminate; try lia; try exact Hb.
Qed.

(** ** Strings *)


Lemma append_inv_head (p s1 s2 : string) : p ++ s1 = p ++ s2 -> s1 = s2.
Proof.
  induction p as [| c p IH]; simpl; intros H; [exact H |].
  injection H as H. now apply IH.
Qed.





(** ** Sorting by key *)

Lemma leb_le (a b : string) :
  String.leb a b = true <-> a = b \/ OrderedTypeEx.String_as_OT.lt a b.
Proof.
  unfold String.leb. destruct (String.compare a b) eqn:Hc.
  - apply OrderedTypeEx.String_as_OT.cmp_eq in Hc. tauto.
  - apply OrderedTypeEx.String_as_OT.cmp_lt in Hc. tauto.
  - split; [discriminate |]. intros [-> | Hlt].
    + assert (H : String.compare b b = Eq)
        by (now apply OrderedTypeEx.String_as_OT.cmp_eq).
      congruence.
    + apply OrderedTypeEx.String_as_OT.cmp_lt in Hlt.
      unfold OrderedTypeEx.String_as_OT.cmp in Hlt. congruence.
Qed.

Lemma leb_trans (a b c : string) :
  String.leb a b = true -> String.leb b c = true -> String.leb a c = true.
Proof.
  rewrite !leb_le. intros [-> | Hab] [-> | Hbc]; auto.
  right. eapply OrderedTypeEx.String_as_OT.lt_trans; eassumption.
Qed.

Lemma insert_item_perm {V} (x : string * V) (l : dict V) :
  Permutation (Json.insert_item x l) (x :: l).
Proof.
  induction l as [| y l IH]; cbn [Json.insert_item]; [reflexivity |].
  destruct (String.leb (fst x) (fst y)); [reflexivity |].
  rewrite IH. apply perm_swap.
Qed.

Lemma insert_item_sorted {V} (x : string * V) (l : dict V) :
  StronglySorted le_key l -> StronglySorted le_key (Json.insert_item x l).
Proof.
  induction 1 as [| y l Hs IH Hy]; cbn [Json.insert_item].
  - constructor; constructor.
  - destruct (String.leb (fst x) (fst y)) eqn:Hxy.
    + constructor; [now constructor |]. constructor; [exact Hxy |].
      eapply Forall_impl; [| exact Hy]. intros z Hz. unfold le_key in *.
      eapply leb_trans; eassumption.
    + constructor; [exact IH |].
      assert (Hyx : le_key y x).
      { unfold le_key. destruct (String.leb_total (fst x) (fst y)); congruence. }
      eapply Permutation_Forall; [symmetry; apply insert_item_perm |].
      constructor; assumption.
Qed.

Lemma sorted_items_spec {V} (d : dict V) :
  Permutation (Json.sorted_items d) d /\ StronglySorted le_key (Json.sorted_items d).
Proof.
  unfold Json.sorted_items. induction d as [| x d [IHp IHs]]; cbn [fold_right].
  - split; constructor.
  - split; [| now apply insert_item_sorted].
    rewrite insert_item_perm. now constructor.
Qed.

(** ** Cache key *)





(** ** Filter clause *)






(** ** Coroutine trees of the service *)

Lemma get_metric_scoped (q : MetricQuery) : scoped 0 (get_metric q).
Proof.
  unfold get_metric, _get_from_cache, _set_cache, _query_database,
    _get_materialized_view_freshness.
  walk_tree.
Qed.

Lemma get_metric_raises_from_store (q : MetricQuery) :
  raises_from_store [] (get_metric q).
Proof.
  unfold get_metric, _get_from_cache, _set_cache, _query_database,
    _get_materialized_view_freshness.
  walk_tree.
Qed.

(** ** The semaphore under the event loop *)

Lemma handle_permits (env : Env) (w w' : World) {X} (o : op X) (x : X) (h : nat) :
  sem_ok o h ->
  handle env w o = Some (w', x) ->
  (permits w' + held_after o h = permits w + h)%nat.
Proof.
  destruct o; cbn [handle sem_ok held_after]; intros Hok H.
  - injection H as <- _. reflexivity.
  - destruct (cache_get_fault env (clock w) key); injection H as <- _; reflexivity.
  - destruct (cache_set_fault env (clock w) key); injection H as <- _; reflexivity.
  - injection H as <- _. reflexivity.
  - injection H as <- _. reflexivity.
  - destruct (permits w) as [| n] eqn:Hp; [discriminate |].
    injection H as <- _. cbn. lia.
  - injection H as <- _. subst h. cbn. lia.
  - injection H as <- _. reflexivity.
Qed.

Lemma step_task_scoped (env : Env) (w w' : World) (t t' : task) :
  task_scoped t ->
  step_task env w t = Some (w', t') ->
  task_scoped t' /\ (permits w' + held t' = permits w + held t)%nat.
Proof.
  unfold task_scoped, step_task. destruct t as [c h]; cbn [code held].
  destruct c as [a | e | X o k]; try discriminate.
  cbn [scoped]. intros [Hok Hk].
  destruct (handle env w o) as [[w1 x] |] eqn:Hh; [| discriminate].
  intros H. injection H as <- <-. cbn [code held]. split.
  - apply Hk.
  - eapply handle_permits; eassumption.
Qed.

Lemma total_held_set_nth (pool : list task) (i : nat) (t t' : task) :
  nth_error pool i = Some t ->
  (total_held (set_nth i t' pool) + held t = total_held pool + held t')%nat.
Proof.
  revert i. induction pool as [| u pool IH]; intros [| i] H; try discriminate.
  - injection H as ->. cbn. lia.
  - cbn in H. specialize (IH i H). cbn [set_nth total_held fold_right] in *.
    fold (total_held pool). fold (total_held (set_nth i t' pool)). lia.
Qed.

Lemma Forall_set_nth {A} (P : A -> Prop) (l : list A) (i : nat) (x : A) :
  Forall P l -> P x -> Forall P (set_nth i x l).
Proof.
  intros Hl Hx. revert i.
  induction Hl as [| y l Hy Hl IH]; intros [| i]; cbn; auto.
Qed.

Lemma step_pool_invariant (env : Env) (a : action) (w w' : World)
  (pool pool' : list task) :
  Forall task_scoped pool ->
  step_pool env (w, pool) a = (w', pool') ->
  Forall task_scoped pool'
  /\ (permits w' + total_held pool' = permits w + total_held pool)%nat.
Proof.
  intros Hs. destruct a as [i | us]; cbn [step_pool].
  - destruct (nth_error pool i) as [t |] eqn:Hi.
    + destruct (step_task env w t) as [[w1 t1] |] eqn:Hst.
      * intros H. injection H as <- <-.
        assert (Ht : task_scoped t).
        { eapply Forall_forall; [exact Hs |]. eapply nth_error_In; eassumption. }
        destruct (step_task_scoped _ _ _ _ _ Ht Hst) as [Ht1 Hp].
        split; [now apply Forall_set_nth |].
        pose proof (total_held_set_nth pool i t t1 Hi). lia.
      * intros H. injection H as <- <-. auto.
    + intros H. injection H as <- <-. auto.
  - intros H. injection H as <- <-. auto.
Qed.

Lemma run_pool_invariant (env : Env) (sched : list action) (w w' : World)
  (pool pool' : list task) :
  Forall task_scoped pool ->
  run_pool env sched (w, pool) = (w', pool') ->
  Forall task_scoped pool'
  /\ (permits w' + total_held pool' = permits w + total_held pool)%nat.
Proof.
  revert w pool. induction sched as [| a sched IH]; intros w pool Hs.
  - cbn. intros H. injection H as <- <-. auto.
  - cbn [run_pool fold_left].
    destruct (step_pool env (w, pool) a) as [w1 pool1] eqn:Hstep.
    destruct (step_pool_invariant _ _ _ _ _ _ Hs Hstep) as [Hs1 Hp1].
    intros H. destruct (IH _ _ Hs1 H) as [Hs' Hp']. split; [exact Hs' | lia].
Qed.

Lemma spawned_scoped (queries : list MetricQuery) :
  Forall task_scoped (map (fun query => spawn (get_metric query)) queries)
  /\ total_held (map (fun query => spawn (get_metric query)) queries) = 0%nat.
Proof.
  induction queries as [| q qs [IH1 IH2]]; cbn [map].
  - split; [constructor | reflexivity].
  - split.
    + constructor; [apply get_metric_scoped | exact IH1].
    + cbn [total_held fold_right spawn held]. exact IH2.
Qed.

Lemma scoped_finished {A} (h : nat) (c : coro A) :
  scoped h c -> finished c = true -> h = 0%nat.
Proof. destruct c; cbn; intros; [assumption | assumption | discriminate]. Qed.

Lemma gather_finished (pool : list task) (results : list outcome) :
  gather pool = Some results ->
  Forall (fun t => finished t.(code) = true) pool.
Proof.
  revert results. induction pool as [| t pool IH]; intros results H; [constructor |].
  cbn [gather] in H. unfold outcome_of in H.
  destruct (gather pool) as [os |].
  - constructor; [| now apply (IH os)].
    destruct (code t); [reflexivity | reflexivity | discriminate].
  - destruct (code t); discriminate.
Qed.

Lemma finished_hold_nothing (pool : list task) :
  Forall task_scoped pool ->
  Forall (fun t => finished t.(code) = true) pool ->
  total_held pool = 0%nat.
Proof.
  induction pool as [| t pool IH]; intros Hs Hf; [reflexivity |].
  inversion Hs as [| ? ? Ht Hs']; inversion Hf as [| ? ? Hft Hf']; subst.
  cbn [total_held fold_right]. fold (total_held pool).
  rewrite (IH Hs' Hf'). rewrite (scoped_finished _ _ Ht Hft). reflexivity.
Qed.

(** C9. Whatever the schedule of the event loop and the answers of the
    collaborators, the permits of [_query_semaphore] are accounted for: the
    free ones and those held by running calls add up to the initial count; a
    call that has ended, by returning or by raising (a store query that
    raised included), holds none; so once every call has ended the semaphore
    is back at its initial count. *)
Theorem semaphore_permits_restored :
  forall (env : Env) (sched : list action) (w : World)
         (queries : list MetricQuery),
    let s := run_pool env sched
               (w, map (fun query => spawn (get_metric query)) queries) in
    (permits (fst s) + total_held (snd s) = permits w)%nat
    /\ (forall t, In t (snd s) -> finished t.(code) = true -> held t = 0%nat)
    /\ (forall results, gather (snd s) = Some results ->
          permits (fst s) = permits w).
Proof.
  intros env sched w queries s.
  destruct (spawned_scoped queries) as [Hs0 Hh0].
  destruct s as [w' pool'] eqn:Hrun. subst s.
  destruct (run_pool_invariant _ _ _ _ _ _ Hs0 Hrun) as [Hs Hp].
  cbn [fst snd]. rewrite Hh0 in Hp.
  split; [lia |]. split.
  - intros t Hin Hf. eapply scoped_finished; [| exact Hf].
    exact (proj1 (Forall_forall _ _) Hs t Hin).
  - intros results Hg.
    pose proof (finished_hold_nothing _ Hs (gather_finished _ _ Hg)). lia.
Qed.

(** ** Waiting at the gate *)

Lemma set_nth_same {A} (l : list A) (i : nat) (x : A) :
  nth_error l i = Some x -> set_nth i x l = l.
Proof.
  revert i. induction l as [| y l IH]; intros [| i] H; cbn in *; try discriminate.
  - now injection H as ->.
  - now rewrite IH.
Qed.

Lemma step_task_at_gate (env : Env) (w : World) (t : task) :
  permits w = 0%nat -> at_gate t.(code) = true -> step_task env w t = None.
Proof.
  intros Hp Hg. unfold step_task. destruct (code t) as [a | e | X o k]; try discriminate.
  destruct o; try discriminate. cbn [handle]. rewrite Hp. reflexivity.
Qed.

(** C7 (as stated) fails: on a service with one permit held by a call that
    awaits the store, a second call waits at the gate; a year later it is
    still suspended there, and it has not raised. *)
Lemma gate_wait_counterexample :
  let s := run_pool env_ok [Tick YEAR_US; Run 1] gate_state in
  clock (fst s) - clock (fst gate_state) = Z.of_N YEAR_US
  /\ permits (fst s) = 0%nat
  /\ option_map (fun t => at_gate t.(code)) (nth_error (snd s) 1) = Some true
  /\ option_map outcome_of (nth_error (snd s) 1) = Some None.
Proof. vm_compute. repeat split. Qed.

(** C7 (amended). A [get_metric] call that has to wait on the gate waits
    without a timeout: while no permit is free, however much time the event
    loop lets pass and however often it polls the call, the call stays
    suspended on the acquisition (it neither returns nor raises) and nothing
    else changes. *)
Theorem gate_wait_has_no_timeout :
  forall (env : Env) (w : World) (pool : list task) (i : nat)
         (sched : list action),
    permits w = 0%nat ->
    option_map (fun t => at_gate t.(code)) (nth_error pool i) = Some true ->
    only_waits i sched ->
    let s := run_pool env sched (w, pool) in
    snd s = pool
    /\ option_map (fun t => at_gate t.(code)) (nth_error (snd s) i) = Some true
    /\ option_map outcome_of (nth_error (snd s) i) = Some None
    /\ permits (fst s) = 0%nat
    /\ clock (fst s) = clock w + Z.of_N (elapsed sched).
Proof.
  intros env w pool i sched Hp Hg Hs. cbn zeta.
  assert (H : snd (run_pool env sched (w, pool)) = pool
              /\ permits (fst (run_pool env sched (w, pool))) = 0%nat
              /\ clock (fst (run_pool env sched (w, pool)))
                 = clock w + Z.of_N (elapsed sched)).
  { revert w Hp. induction Hs as [| a sched Ha Hs IH]; intros w Hp.
    - cbn. repeat split; [assumption | lia].
    - cbn [run_pool fold_left elapsed fold_right].
      fold (elapsed sched). fold (run_pool env sched (step_pool env (w, pool) a)).
      destruct a as [j | us].
      + subst j. cbn [step_pool].
        destruct (nth_error pool i) as [t |] eqn:Hi; [| discriminate].
        cbn in Hg. injection Hg as Hg.
        rewrite (step_task_at_gate env w t Hp Hg). apply IH. exact Hp.
      + cbn [step_pool].
        destruct (IH (advance w us)) as (H1 & H2 & H3); [exact Hp |].
        repeat split; [exact H1 | exact H2 |].
        rewrite H3. cbn [advance clock]. lia. }
  destruct H as (H1 & H2 & H3). rewrite H1.
  repeat split; try assumption.
  destruct (nth_error pool i) as [t |]; [| discriminate Hg].
  cbn in *. injection Hg as Hg. unfold outcome_of.
  destruct (code t) as [r | e | X o k]; try discriminate Hg. reflexivity.
Qed.

Lemma gate_wait_has_no_timeout_witness :
  permits (fst gate_state) = 0%nat
  /\ option_map (fun t => at_gate t.(code)) (nth_error (snd gate_state) 1)
     = Some true
  /\ only_waits 1 [Tick YEAR_US; Run 1; Tick YEAR_US]
  /\ snd (run_pool env_ok [Tick YEAR_US; Run 1; Tick YEAR_US] gate_state)
     = snd gate_state
  /\ permits
       (fst (run_pool env_ok [Tick YEAR_US; Run 1; Tick YEAR_US] gate_state))
     = 0%nat.
Proof.
  assert (H1 : permits (fst gate_state) = 0%nat) by reflexivity.
  assert (H2 : option_map (fun t => at_gate t.(code))
                 (nth_error (snd gate_state) 1) = Some true) by reflexivity.
  assert (H3 : only_waits 1 [Tick YEAR_US; Run 1; Tick YEAR_US])
    by (repeat constructor).
  destruct (gate_wait_has_no_timeout env_ok (fst gate_state) (snd gate_state) 1
              [Tick YEAR_US; Run 1; Tick YEAR_US] H1 H2 H3)
    as (H4 & _ & _ & H5 & _).
  repeat split; assumption.
Defined.

(** ** Uninterrupted runs *)

Lemma handle_waits (env : Env) (w : World) {X} (o : op X) (h : nat) :
  handle env w o = None -> sem_ok o h -> (1 <= permits w + h)%nat -> False.
Proof.
  destruct o; cbn [handle sem_ok]; intros H Hok Hp; try discriminate.
  - destruct (cache_get_fault env (clock w) key); discriminate.
  - destruct (cache_set_fault env (clock w) key); discriminate.
  - destruct (permits w); [lia | discriminate].
Qed.

(** A coroutine that uses the semaphore in the scoped way runs to its end
    when a permit is free, and leaves the permits as they were. *)
Lemma run_scoped {A} (c : coro A) :
  forall (env : Env) (w : World) (h : nat),
    scoped h c -> (1 <= permits w + h)%nat ->
    finished (snd (run env w c)) = true
    /\ permits (fst (run env w c)) = (permits w + h)%nat.
Proof.
  induction c as [a | e | X o k IH]; intros env w h Hs Hp.
  - cbn in *. subst h. split; [reflexivity | lia].
  - cbn in *. subst h. split; [reflexivity | lia].
  - cbn [scoped] in Hs. destruct Hs as [Hok Hk]. cbn [run].
    destruct (handle env w o) as [[w1 x] |] eqn:Hh.
    + pose proof (handle_permits env w w1 o x h Hok Hh) as Hperm.
      destruct (IH x env w1 (held_after o h) (Hk x)) as [Hf Hq]; [lia |].
      split; [exact Hf | lia].
    + exfalso. eapply handle_waits; eassumption.
Qed.

Lemma handle_store_answers (env : Env) (w w' : World) {X} (o : op X) (x : X) :
  store_answers env -> handle env w o = Some (w', x) -> store_error o x = None.
Proof.
  intros [Hexec Hfirst]. destruct o; cbn [handle store_error]; intros H;
    try reflexivity.
  - destruct (Hexec (clock w) sql params) as [rows Hr]. rewrite Hr in H.
    injection H as _ <-. reflexivity.
  - destruct (Hfirst (clock w) sql) as [row Hr]. rewrite Hr in H.
    injection H as _ <-. reflexivity.
Qed.

Lemma run_raises_from_store {A} (c : coro A) :
  forall (env : Env) (w : World) (seen : list exn) (e : exn),
    store_answers env -> raises_from_store seen c ->
    snd (run env w c) = Raise e -> In e seen.
Proof.
  induction c as [a | e0 | X o k IH]; intros env w seen e Hst Hr Hrun.
  - discriminate.
  - cbn in *. now injection Hrun as <-.
  - cbn [run] in Hrun. destruct (handle env w o) as [[w1 x] |] eqn:Hh.
    + cbn [raises_from_store] in Hr. specialize (Hr x).
      rewrite (handle_store_answers env w w1 o x Hst Hh) in Hr.
      eapply IH; eassumption.
    + discriminate.
Qed.

Lemma step_pool_raises (env : Env) (a : action) (s : World * list task) :
  store_answers env ->
  Forall (fun t => raises_from_store [] t.(code)) (snd s) ->
  Forall (fun t => raises_from_store [] t.(code)) (snd (step_pool env s a)).
Proof.
  intros Hst. destruct s as [w pool]. cbn [snd]. intros Hall.
  destruct a as [i | us]; cbn [step_pool]; [| exact Hall].
  destruct (nth_error pool i) as [t |] eqn:Hi; [| exact Hall].
  unfold step_task. destruct (code t) as [r | e | X o k] eqn:Hc; try exact Hall.
  destruct (handle env w o) as [[w1 x] |] eqn:Hh; [| exact Hall].
  cbn [snd].
  apply (Forall_set_nth (fun t => raises_from_store [] t.(code)));
    [exact Hall |]. cbn [code].
  pose proof (proj1 (Forall_forall _ _) Hall t (nth_error_In _ _ Hi)) as Ht.
  cbn beta in Ht. rewrite Hc in Ht. cbn [raises_from_store] in Ht. specialize (Ht x).
  now rewrite (handle_store_answers env w w1 o x Hst Hh) in Ht.
Qed.

Lemma run_pool_raises (env : Env) (sched : list action) (s : World * list task) :
  store_answers env ->
  Forall (fun t => raises_from_store [] t.(code)) (snd s) ->
  Forall (fun t => raises_from_store [] t.(code)) (snd (run_pool env sched s)).
Proof.
  intros Hst. revert s. induction sched as [| a sched IH]; intros s Hall.
  - exact Hall.
  - cbn [run_pool fold_left]. apply IH. now apply step_pool_raises.
Qed.

(** ** Cache faults *)

(** C3. [_get_from_cache] and [_set_cache] end by returning in every world
    and whatever Redis does: a failing read gives [None] and a failing write
    leaves Redis as it was, each reported by one warning in the log.  So
    as long as the store answers, [get_metric] returns, under every schedule
    and with Redis failing or not. *)
Theorem cache_faults_are_absorbed :
  forall (env : Env) (w : World) (key : string),
    (exists w' r,
        run env w (_get_from_cache key) = (w', Ret r)
        /\ forall e, env.(cache_get_fault) w.(clock) key = Some e ->
             r = None
             /\ w'.(log)
                = (w.(log) ++ [LogWarning "cache_read_error" (str_exn e)])%list)
    /\ (forall data ttl,
          exists w',
            run env w (_set_cache key data ttl) = (w', Ret tt)
            /\ forall e, env.(cache_set_fault) w.(clock) key = Some e ->
                 w'.(redis) = w.(redis)
                 /\ w'.(log)
                    = (w.(log) ++ [LogWarning "cache_write_error" (str_exn e)])%list)
    /\ (forall q, store_answers env -> (0 < permits w)%nat ->
          exists w' r, run env w (get_metric q) = (w', Ret r))
    /\ (forall sched queries t e, store_answers env ->
          In t (snd (run_pool env sched
                       (w, map (fun query => spawn (get_metric query)) queries))) ->
          t.(code) <> Raise e).
Proof.
  intros env w key. split; [| split; [| split]].
  - unfold _get_from_cache, await, perform.
    cbn [try_except bind run handle].
    destruct (cache_get_fault env (clock w) key) as [e |].
    + cbn. eexists; eexists. split; [reflexivity |].
      intros e' H. injection H as <-. split; reflexivity.
    + destruct (redis_lookup (clock w) key (redis w)) as [[rows | s] |];
        cbn; [| destruct (negb (s =? EmptyString)%string); cbn |];
        eexists; eexists; (split; [reflexivity | intros ? H; discriminate H]).
  - intros data ttl. unfold _set_cache, await, perform.
    cbn [try_except bind run handle].
    destruct (cache_set_fault env (clock w) key) as [e |]; cbn.
    + eexists. split; [reflexivity |].
      intros e' H. injection H as <-. split; reflexivity.
    + eexists. split; [reflexivity | intros ? H; discriminate H].
  - intros q Hst Hp.
    destruct (run_scoped (get_metric q) env w 0 (get_metric_scoped q)) as [Hf _];
      [lia |].
    destruct (run env w (get_metric q)) as [w' c] eqn:Hrun. cbn [snd] in Hf.
    destruct c as [r | e | X o k]; [now exists w', r | | discriminate].
    exfalso.
    apply (run_raises_from_store (get_metric q) env w [] e Hst
             (get_metric_raises_from_store q)).
    now rewrite Hrun.
  - intros sched queries t e Hst Hin Hc.
    assert (Hall : Forall (fun t => raises_from_store [] t.(code))
                     (snd (run_pool env sched
                             (w, map (fun query => spawn (get_metric query)) queries)))).
    { apply run_pool_raises; [exact Hst |]. cbn [snd].
      apply Forall_forall. intros t0 Ht0. apply in_map_iff in Ht0.
      destruct Ht0 as [q [<- _]]. apply get_metric_raises_from_store. }
    pose proof (proj1 (Forall_forall _ _) Hall t Hin) as Ht.
    cbn beta in Ht. rewrite Hc in Ht. exact Ht.
Qed.

Example cache_down_still_answers :
  exists w',
    run env_cache_down (init_world t0 100) (get_metric q_active_users)
    = (w', Ret {| data := map row_to_dict sample_rows; cached := false;
                  query_time_ms := total_ms 0;
                  data_freshness := Some last_refresh0 |})
    /\ w'.(log)
       = [LogWarning "cache_read_error" "redis down";
          LogWarning "cache_write_error" "redis down";
          LogInfo "cache_miss" "active_users" "hot" (total_ms 0)].
Proof. eexists. split; vm_compute; reflexivity. Qed.

(** ** Batches *)

Lemma process_results_run (env : Env) (results : list outcome) :
  forall (i : nat) (acc : list MetricResult) (w : World),
    exists w',
      run env w (process_results i results acc)
      = (w', Ret (acc ++ map slot_of results)%list).
Proof.
  induction results as [| o results IH]; intros i acc w.
  - exists w. cbn. now rewrite app_nil_r.
  - destruct o as [r | e]; cbn [process_results map slot_of].
    + destruct (IH (S i) (acc ++ [r])%list w) as [w' Hw'].
      exists w'. rewrite Hw'. now rewrite <- app_assoc.
    + cbn [bind perform run handle].
      destruct (IH (S i) (acc ++ [failed_result])%list
                  (with_log w (LogError "batch_query_error" i (str_exn e))))
        as [w' Hw'].
      exists w'. rewrite Hw'. now rewrite <- app_assoc.
Qed.

Lemma gather_outcomes (pool : list task) (results : list outcome) :
  gather pool = Some results ->
  List.length results = List.length pool
  /\ forall i t, nth_error pool i = Some t ->
       exists o, outcome_of t = Some o /\ nth_error results i = Some o.
Proof.
  revert results. induction pool as [| t pool IH]; intros results H.
  - injection H as <-. split; [reflexivity |]. intros [| i] t H; discriminate H.
  - cbn [gather] in H. destruct (outcome_of t) as [o |] eqn:Ho; [| discriminate].
    destruct (gather pool) as [os |]; [| discriminate].
    injection H as <-. destruct (IH os eq_refl) as [Hlen Hnth].
    split; [cbn; now rewrite Hlen |].
    intros [| i] u Hu; cbn in Hu.
    + injection Hu as <-. now exists o.
    + exact (Hnth i u Hu).
Qed.

Lemma length_set_nth {A} (l : list A) (i : nat) (x : A) :
  List.length (set_nth i x l) = List.length l.
Proof.
  revert i. induction l as [| y l IH]; intros [| i]; cbn; auto.
Qed.

Lemma run_pool_length (env : Env) (sched : list action) (s : World * list task) :
  List.length (snd (run_pool env sched s)) = List.length (snd s).
Proof.
  revert s. induction sched as [| a sched IH]; intros s; [reflexivity |].
  cbn [run_pool fold_left]. fold (run_pool env sched (step_pool env s a)).
  rewrite IH. destruct s as [w pool]. destruct a as [i | us]; cbn [step_pool];
    [| reflexivity].
  destruct (nth_error pool i) as [t |]; [| reflexivity].
  destruct (step_task env w t) as [[w1 t1] |]; [| reflexivity].
  cbn [snd]. apply length_set_nth.
Qed.

(** What [batch_get_metrics] returns once every call has ended. *)
Lemma batch_get_metrics_spec (env : Env) (sched : list action) (w : World)
  (queries : list MetricQuery) :
  let pool := snd (run_pool env sched (w, batch_tasks queries)) in
  match batch_get_metrics env sched w queries with
  | None => gather pool = None
  | Some (w', c) =>
      exists results,
        gather pool = Some results
        /\ c = Ret (map slot_of results)
        /\ List.length results = List.length queries
        /\ forall i t, nth_error pool i = Some t ->
             exists o, outcome_of t = Some o /\ nth_error results i = Some o
  end.
Proof.
  cbn zeta. unfold batch_get_metrics. fold (batch_tasks queries).
  pose proof (run_pool_length env sched (w, batch_tasks queries)) as Hlen.
  destruct (run_pool env sched (w, batch_tasks queries)) as [w1 pool].
  cbn [snd] in *. destruct (gather pool) as [results |] eqn:Hg; [| reflexivity].
  destruct (process_results_run env results 0 [] w1) as [w' Hw'].
  rewrite Hw'. exists results. destruct (gather_outcomes _ _ Hg) as [Hl Hn].
  repeat split; try assumption.
  rewrite Hl, Hlen. unfold batch_tasks. apply length_map.
Qed.

Lemma nth_error_set_nth {A} (l : list A) (i : nat) (x y : A) :
  nth_error l i = Some y -> nth_error (set_nth i x l) i = Some x.
Proof.
  revert i. induction l as [| z l IH]; intros [| i] H; cbn in *; try discriminate.
  - reflexivity.
  - now apply IH.
Qed.

Lemma set_nth_set_nth {A} (l : list A) (i : nat) (x y : A) :
  set_nth i x (set_nth i y l) = set_nth i x l.
Proof.
  revert i. induction l as [| z l IH]; intros [| i]; cbn; try reflexivity.
  now rewrite IH.
Qed.

Lemma set_nth_app {A} (l1 l2 : list A) (x y : A) :
  set_nth (List.length l1) x (l1 ++ y :: l2)%list = (l1 ++ x :: l2)%list.
Proof. induction l1 as [| z l1 IH]; cbn; [reflexivity | now rewrite IH]. Qed.

Lemma nth_error_middle {A} (l1 l2 : list A) (y : A) :
  nth_error (l1 ++ y :: l2)%list (List.length l1) = Some y.
Proof. induction l1 as [| z l1 IH]; cbn; [reflexivity | exact IH]. Qed.

Lemma run_pool_app (env : Env) (s1 s2 : list action) (s : World * list task) :
  run_pool env (s1 ++ s2)%list s = run_pool env s2 (run_pool env s1 s).
Proof. unfold run_pool. apply fold_left_app. Qed.

Lemma gather_all_finished (pool : list task) :
  Forall (fun t => finished t.(code) = true) pool -> gather pool <> None.
Proof.
  induction 1 as [| t pool Ht _ IH]; cbn [gather]; [discriminate |].
  unfold outcome_of. destruct (code t); try discriminate Ht;
    destruct (gather pool); try discriminate; now elim IH.
Qed.

Lemma descends_answer {A X} (c : coro A) (o : op X) (k : X -> coro A) (x : X) :
  descends c (Vis o k) -> descends c (k x).
Proof.
  intros H. remember (Vis o k) as c' eqn:Hc'. revert Hc'.
  induction H as [c | Y o' k' y c' H IH]; intros Hc'.
  - subst c. apply (descends_step o k x). apply descends_here.
  - apply (descends_step o' k' y). now apply IH.
Qed.

Lemma Forall2_set_nth {A B} (R : A -> B -> Prop) (l1 : list A) (l2 : list B)
  (i : nat) (y y' : B) :
  Forall2 R l1 l2 ->
  nth_error l2 i = Some y ->
  (forall x, R x y -> R x y') ->
  Forall2 R l1 (set_nth i y' l2).
Proof.
  intros H. revert i. induction H as [| a b l1 l2 Hab H IH]; intros i Hi Hy.
  - destruct i; cbn; constructor.
  - destruct i as [| i]; cbn in *.
    + injection Hi as ->. constructor; auto.
    + constructor; [exact Hab | now apply IH].
Qed.

(** The event loop never moves a call to another position of the pool. *)
Lemma run_pool_tasks_of (env : Env) (sched : list action) (w : World)
  (queries : list MetricQuery) :
  tasks_of queries (snd (run_pool env sched (w, batch_tasks queries))).
Proof.
  assert (H0 : tasks_of queries (snd (w, batch_tasks queries))).
  { cbn [snd]. unfold tasks_of, batch_tasks.
    induction queries as [| q qs IH]; cbn [map]; constructor;
      [apply descends_here | exact IH]. }
  revert H0. generalize (w, batch_tasks queries). clear w.
  induction sched as [| a sched IH]; intros s Hs; [exact Hs |].
  cbn [run_pool fold_left]. apply IH.
  destruct s as [w pool]. cbn [snd] in Hs.
  destruct a as [i | us]; cbn [step_pool]; [| exact Hs].
  destruct (nth_error pool i) as [t |] eqn:Hi; [| exact Hs].
  unfold step_task. destruct (code t) as [r | e | X o k] eqn:Hc; try exact Hs.
  destruct (handle env w o) as [[w1 x] |]; [| exact Hs].
  cbn [snd]. unfold tasks_of in *.
  eapply Forall2_set_nth; [exact Hs | exact Hi |].
  intros q Hq. cbn [code]. rewrite Hc in Hq.
  exact (descends_answer _ o k x Hq).
Qed.

Lemma Forall2_nth_error {A B} (R : A -> B -> Prop) (l1 : list A) (l2 : list B)
  (i : nat) (y : B) :
  Forall2 R l1 l2 -> nth_error l2 i = Some y ->
  exists x, nth_error l1 i = Some x /\ R x y.
Proof.
  intros H. revert i. induction H as [| a b l1 l2 Hab H IH]; intros [| i] Hi;
    cbn in *; try discriminate.
  - injection Hi as ->. now exists a.
  - now apply IH.
Qed.

(** Running one task of the pool without interruption: it ends, or it stops
    at the gate with no permit free; either way it then holds no permit. *)
Lemma run_task_alone (c : coro MetricResult) :
  forall (env : Env) (w : World) (pool : list task) (i h : nat),
    nth_error pool i = Some {| code := c; held := h |} ->
    scoped h c ->
    exists n c',
      run_pool env (repeat (Run i) n) (w, pool)
      = (fst (run env w c), set_nth i {| code := c'; held := 0 |} pool)
      /\ c' = snd (run env w c)
      /\ scoped 0 c'
      /\ permits (fst (run env w c)) = (permits w + h)%nat
      /\ (finished c' = true \/ permits (fst (run env w c)) = 0%nat).
Proof.
  induction c as [r | e | X o k IH]; intros env w pool i h Hi Hs.
  - cbn in Hs. subst h. exists 0%nat, (Ret r). cbn.
    rewrite (set_nth_same _ _ _ Hi). repeat split; auto.
  - cbn in Hs. subst h. exists 0%nat, (Raise e). cbn.
    rewrite (set_nth_same _ _ _ Hi). repeat split; auto.
  - pose proof Hs as Hs0. cbn [scoped] in Hs. destruct Hs as [Hok Hk].
    cbn [run]. destruct (handle env w o) as [[w1 x] |] eqn:Hh.
    + set (t1 := {| code := k x; held := held_after o h |}).
      destruct (IH x env w1 (set_nth i t1 pool) i (held_after o h))
        as (n & c' & Hn & Hc' & Hsc & Hp & Hfin).
      { eapply nth_error_set_nth. exact Hi. }
      { apply Hk. }
      exists (S n), c'. cbn [repeat run_pool fold_left step_pool].
      rewrite Hi. unfold step_task. cbn [code held]. rewrite Hh.
      fold t1. fold (run_pool env (repeat (Run i) n) (w1, set_nth i t1 pool)).
      rewrite Hn, set_nth_set_nth.
      pose proof (handle_permits env w w1 o x h Hok Hh).
      repeat split; auto. lia.
    + assert (Hgate : h = 0%nat /\ permits w = 0%nat).
      { destruct o; cbn [handle sem_ok] in *; try discriminate.
        - destruct (cache_get_fault env (clock w) key); discriminate.
        - destruct (cache_set_fault env (clock w) key); discriminate.
        - destruct (permits w); [auto | discriminate]. }
      destruct Hgate as [-> Hp0].
      exists 0%nat, (Vis o k). cbn [repeat run_pool fold_left fst snd].
      rewrite (set_nth_same _ _ _ Hi). repeat split; auto.
Qed.

Lemma total_held_zero (pool : list task) :
  Forall (fun t => held t = 0%nat) pool -> total_held pool = 0%nat.
Proof.
  induction 1 as [| t pool Ht _ IH]; [reflexivity |].
  cbn [total_held fold_right]. fold (total_held pool). lia.
Qed.

(** First sweep: each call in turn runs as far as it can.  Afterwards no
    call holds a permit, so all permits are free. *)
Lemma sweep_release (env : Env) (todo : list task) :
  forall (w : World) (done : list task),
    Forall task_scoped todo ->
    exists sched w' todo',
      run_pool env sched (w, (done ++ todo)%list) = (w', (done ++ todo')%list)
      /\ Forall task_scoped todo'
      /\ Forall (fun t => held t = 0%nat) todo'
      /\ permits w' = (permits w + total_held todo)%nat.
Proof.
  induction todo as [| [c h] todo IH]; intros w done Hs.
  - exists [], w, []. cbn. repeat split; auto.
  - inversion Hs as [| ? ? Ht Hs']; subst. unfold task_scoped in Ht. cbn in Ht.
    destruct (run_task_alone c env w (done ++ {| code := c; held := h |} :: todo)%list
                (List.length done) h (nth_error_middle _ _ _) Ht)
      as (n & c' & Hn & _ & Hsc & Hp & _).
    rewrite set_nth_app in Hn.
    set (t' := {| code := c'; held := 0 |}) in *.
    destruct (IH (fst (run env w c)) (done ++ [t'])%list Hs')
      as (sched & w' & todo' & Hrun & Hs2 & Hh2 & Hp2).
    exists (repeat (Run (List.length done)) n ++ sched)%list, w', (t' :: todo').
    rewrite run_pool_app, Hn.
    rewrite <- !app_assoc in Hrun. cbn [app] in Hrun.
    repeat split; auto.
    cbn [total_held fold_right held]. fold (total_held todo). lia.
Qed.

(** Second sweep: with a permit free and none held, each call in turn runs
    to its end. *)
Lemma sweep_finish (env : Env) (todo : list task) :
  forall (w : World) (done : list task),
    (1 <= permits w)%nat ->
    Forall task_scoped todo ->
    Forall (fun t => held t = 0%nat) todo ->
    exists sched w' todo',
      run_pool env sched (w, (done ++ todo)%list) = (w', (done ++ todo')%list)
      /\ Forall (fun t => finished t.(code) = true) todo'.
Proof.
  induction todo as [| [c h] todo IH]; intros w done Hp Hs Hh.
  - exists [], w, []. cbn. auto.
  - inversion Hs as [| ? ? Ht Hs']; inversion Hh as [| ? ? Hh0 Hh']; subst.
    unfold task_scoped in Ht. cbn in Ht, Hh0. subst h.
    destruct (run_task_alone c env w (done ++ {| code := c; held := 0 |} :: todo)%list
                (List.length done) 0 (nth_error_middle _ _ _) Ht)
      as (n & c' & Hn & Hc' & _ & Hq & _).
    destruct (run_scoped c env w 0 Ht) as [Hf _]; [lia |].
    rewrite set_nth_app in Hn.
    set (t' := {| code := c'; held := 0 |}) in *.
    destruct (IH (fst (run env w c)) (done ++ [t'])%list)
      as (sched & w' & todo' & Hrun & Hfin); [lia | exact Hs' | exact Hh' |].
    exists (repeat (Run (List.length done)) n ++ sched)%list, w', (t' :: todo').
    rewrite run_pool_app, Hn.
    rewrite <- !app_assoc in Hrun. cbn [app] in Hrun.
    split; [exact Hrun |]. constructor; [| exact Hfin].
    subst t'. cbn [code]. rewrite Hc'. exact Hf.
Qed.

(** No deadlock: with a permit free at the start, whatever the event loop
    has done so far, it can go on so that every call of the batch ends. *)
Lemma batch_can_complete (env : Env) (w : World) (queries : list MetricQuery)
  (sched : list action) :
  (1 <= permits w)%nat ->
  exists sched',
    Forall (fun t => finished t.(code) = true)
      (snd (run_pool env (sched ++ sched') (w, batch_tasks queries))).
Proof.
  intros Hp.
  destruct (spawned_scoped queries) as [Hs0 Hh0]. fold (batch_tasks queries) in *.
  destruct (run_pool env sched (w, batch_tasks queries)) as [w0 pool0] eqn:Hrun0.
  destruct (run_pool_invariant _ _ _ _ _ _ Hs0 Hrun0) as [Hsc0 Hp0].
  destruct (sweep_release env pool0 w0 [] Hsc0)
    as (s1 & w1 & pool1 & Hrun1 & Hsc1 & Hh1 & Hp1).
  destruct (sweep_finish env pool1 w1 []) as (s2 & w2 & pool2 & Hrun2 & Hfin);
    [lia | exact Hsc1 | exact Hh1 |].
  cbn [app] in *. exists (s1 ++ s2)%list.
  now rewrite !run_pool_app, Hrun0, Hrun1, Hrun2.
Qed.

(** C1. Under every schedule, once every call of the batch has ended,
    [batch_get_metrics] returns (it does not raise) a list with one slot per
    query, in the order of the queries: slot [i] belongs to the call made
    for query [i]; it is the result that call returned, or, when that call
    raised, the empty result ([data] empty, [cached] false).  Until then it is still waiting;
    and with a permit free at the start the batch never deadlocks: whatever
    the event loop has done so far, it can go on so that the batch returns. *)
Theorem batch_one_slot_per_query :
  forall (env : Env) (w : World) (queries : list MetricQuery),
    (forall sched,
        let pool := snd (run_pool env sched (w, batch_tasks queries)) in
        match batch_get_metrics env sched w queries with
        | None => gather pool = None
        | Some (w', c) =>
            exists slots,
              c = Ret slots
              /\ List.length slots = List.length queries
              /\ forall i t, nth_error pool i = Some t ->
                   (exists query,
                       nth_error queries i = Some query
                       /\ descends (get_metric query) t.(code))
                   /\ match t.(code) with
                      | Ret r => nth_error slots i = Some r
                      | Raise _ =>
                          nth_error slots i = Some failed_result
                          /\ failed_result.(data) = []
                          /\ failed_result.(cached) = false
                      | Vis _ _ => False
                      end
        end)
    /\ ((0 < permits w)%nat ->
        forall sched, exists sched',
          batch_get_metrics env (sched ++ sched') w queries <> None).
Proof.
  intros env w queries. split.
  - intros sched. pose proof (batch_get_metrics_spec env sched w queries) as H.
    cbn zeta in *.
    destruct (batch_get_metrics env sched w queries) as [[w' c] |]; [| exact H].
    destruct H as (results & Hg & Hc & Hlen & Hnth).
    exists (map slot_of results). split; [exact Hc |].
    split; [now rewrite length_map |].
    intros i t Hi. split.
    { exact (Forall2_nth_error _ _ _ i t
               (run_pool_tasks_of env sched w queries) Hi). }
    destruct (Hnth i t Hi) as (o & Ho & Hr).
    unfold outcome_of in Ho.
    destruct (code t) as [r | e | X op k]; [| | discriminate];
      injection Ho as <-; rewrite nth_error_map, Hr; cbn; auto.
  - intros Hp sched.
    destruct (batch_can_complete env w queries sched Hp) as [sched' Hs].
    exists sched'.
    pose proof (batch_get_metrics_spec env (sched ++ sched') w queries) as H.
    cbn zeta in H.
    destruct (batch_get_metrics env (sched ++ sched') w queries) as [[w' c] |];
      [discriminate |].
    exfalso. exact (gather_all_finished _ Hs H).
Qed.

Lemma batch_one_slot_per_query_witness :
  (0 < permits (init_world t0 100))%nat
  /\ exists sched',
       batch_get_metrics env_missing_view (slow_failure ++ sched')
         (init_world t0 100) [q_active_users; q_malformed; q_cold] <> None.
Proof.
  split; [cbn; lia |].
  apply (batch_one_slot_per_query env_missing_view (init_world t0 100)
           [q_active_users; q_malformed; q_cold]).
  cbn; lia.
Defined.

Example batch_keeps_order :
  exists w',
    batch_get_metrics env_missing_view round_robin (init_world t0 100)
      [q_active_users; q_malformed; q_cold]
    = Some (w',
            Ret [ {| data := map row_to_dict sample_rows; cached := false;
                     query_time_ms := total_ms 7000;
                     data_freshness := Some last_refresh0 |};
                  failed_result;
                  {| data := map row_to_dict sample_rows; cached := false;
                     query_time_ms := total_ms 5000;
                     data_freshness := Some last_refresh0 |} ]).
Proof. eexists. vm_compute. reflexivity. Qed.

(** C10 (as stated) fails: a call that learns of its failure five seconds
    after it began gets a slot whose [query_time_ms] is 0, not 5000. *)
Lemma failed_slot_time_counterexample :
  exists w' slot,
    batch_get_metrics env_store_down slow_failure (init_world t0 100) [q_cold]
    = Some (w', Ret [slot])
    /\ w'.(clock) - t0 = 5000000
    /\ slot = failed_result
    /\ slot.(query_time_ms) = 0%Q
    /\ ~ Qeq slot.(query_time_ms) (total_ms (w'.(clock) - t0)).
Proof.
  eexists. eexists. split; [vm_compute; reflexivity |].
  repeat split. vm_compute. discriminate.
Qed.

(** C10 (amended). Under every schedule, however long a failing call ran,
    the slot [batch_get_metrics] returns for a call that raised is the one
    fixed empty result: [data] empty, [cached] false, no freshness, and
    [query_time_ms] equal to 0. *)
Theorem failed_slot_is_constant :
  forall (env : Env) (sched : list action) (w w' : World)
         (queries : list MetricQuery) (c : coro (list MetricResult))
         (i : nat) (t : task) (e : exn),
    batch_get_metrics env sched w queries = Some (w', c) ->
    nth_error (snd (run_pool env sched (w, batch_tasks queries))) i = Some t ->
    t.(code) = Raise e ->
    exists slots,
      c = Ret slots
      /\ nth_error slots i
         = Some {| data := []; cached := false; query_time_ms := 0%Q;
                   data_freshness := None |}.
Proof.
  intros env sched w w' queries c i t e Hb Hi Hc.
  pose proof (batch_get_metrics_spec env sched w queries) as H. cbn zeta in H.
  rewrite Hb in H. destruct H as (results & _ & Hret & _ & Hnth).
  exists (map slot_of results). split; [exact Hret |].
  destruct (Hnth i t Hi) as (o & Ho & Hr).
  unfold outcome_of in Ho. rewrite Hc in Ho. injection Ho as <-.
  rewrite nth_error_map, Hr. reflexivity.
Qed.

Lemma failed_slot_is_constant_witness :
  exists w' c t slots,
    batch_get_metrics env_store_down slow_failure (init_world t0 100) [q_cold]
    = Some (w', c)
    /\ nth_error
         (snd (run_pool env_store_down slow_failure
                 (init_world t0 100, batch_tasks [q_cold]))) 0
       = Some t
    /\ t.(code) = Raise (Exn "OperationalError" "connection refused")
    /\ c = Ret slots
    /\ nth_error slots 0
       = Some {| data := []; cached := false; query_time_ms := 0%Q;
                 data_freshness := None |}.
Proof.
  destruct (batch_get_metrics env_store_down slow_failure (init_world t0 100)
              [q_cold]) as [[w' c] |] eqn:Hb;
    [| vm_compute in Hb; discriminate Hb].
  set (t := {| code := Raise (Exn "OperationalError" "connection refused");
               held := 0 |}).
  assert (Ht : nth_error
                 (snd (run_pool env_store_down slow_failure
                         (init_world t0 100, batch_tasks [q_cold]))) 0
               = Some t) by (vm_compute; reflexivity).
  destruct (failed_slot_is_constant env_store_down slow_failure
              (init_world t0 100) w' [q_cold] c 0 t
              (Exn "OperationalError" "connection refused") Hb Ht eq_refl)
    as (slots & Hc & Hn).
  exists w', c, t, slots. repeat split; assumption.
Defined.

(** ** Repeated calls *)

(** A live, non-empty cache entry is served: the call returns it with
    [cached] set, and reaches neither the gate nor the store. *)
Lemma cached_rows_are_served (env : Env) (w : World) (q : MetricQuery)
  (row : Row) (rows : list Row) :
  _get_cache_strategy w.(clock) q.(start_date) <> COLD ->
  env.(cache_get_fault) w.(clock) (_build_cache_key q) = None ->
  redis_lookup w.(clock) (_build_cache_key q) w.(redis)
  = Some (JsonRows (row :: rows)) ->
  exists w',
    run env w (get_metric q)
    = (w', Ret {| data := row :: rows; cached := true;
                  query_time_ms := total_ms 0; data_freshness := None |})
    /\ w'.(io) = (w.(io) ++ [IoCacheGet (_build_cache_key q)])%list
    /\ w'.(redis) = w.(redis).
Proof.
  intros Hs Hf Hl. unfold get_metric, _get_from_cache.
  run_tree.
  destruct (_get_cache_strategy (clock w) (start_date q)); [| | contradiction];
    run_tree; rewrite Z.sub_diag;
    (eexists; split; [reflexivity | split; reflexivity]).
Qed.

(** A hot call that went to the store and could write to Redis leaves its
    rows under the query's key for [CACHE_TTL_SECONDS]. *)
Lemma hot_miss_populates (env : Env) (w w' : World) (q : MetricQuery)
  (r : MetricResult) :
  _get_cache_strategy w.(clock) q.(start_date) = HOT ->
  env.(cache_set_fault) w.(clock) (_build_cache_key q) = None ->
  run env w (get_metric q) = (w', Ret r) ->
  r.(cached) = false ->
  w'.(clock) = w.(clock)
  /\ w'.(redis)
     = (_build_cache_key q,
        (JsonRows r.(data), w.(clock) + CACHE_TTL_SECONDS * US_PER_SECOND))
       :: w.(redis).
Proof.
  intros Hs Hf. unfold get_metric, _get_from_cache, _query_database, _set_cache,
    _get_materialized_view_freshness.
  run_cases;
    intros H Hc; try discriminate H; injection H as <- <-;
    try discriminate Hc; split; reflexivity.
Qed.

(** With rows in the answer, the repeated hot call inside the TTL window is
    served from the cache with the same rows. *)
Lemma hot_repeat_is_cached (env : Env) (w w1 : World) (q : MetricQuery)
  (r : MetricResult) (us : N) :
  _get_cache_strategy w.(clock) q.(start_date) = HOT ->
  env.(cache_set_fault) w.(clock) (_build_cache_key q) = None ->
  run env w (get_metric q) = (w1, Ret r) ->
  r.(cached) = false ->
  r.(data) <> [] ->
  Z.of_N us < CACHE_TTL_SECONDS * US_PER_SECOND ->
  env.(cache_get_fault) (w.(clock) + Z.of_N us) (_build_cache_key q) = None ->
  exists w2,
    run env (advance w1 us) (get_metric q)
    = (w2, Ret {| data := r.(data); cached := true;
                  query_time_ms := total_ms 0; data_freshness := None |}).
Proof.
  intros Hs Hf Hrun Hc Hd Hus Hg.
  destruct (hot_miss_populates env w w1 q r Hs Hf Hrun Hc) as [Hclock Hredis].
  destruct (data r) as [| row rows] eqn:Hdata; [contradiction |].
  destruct (cached_rows_are_served env (advance w1 us) q row rows) as (w2 & H2 & _).
  - cbn [advance clock]. rewrite Hclock.
    unfold _get_cache_strategy in *.
    change (timedelta_of 0 HOT_DATA_HOURS) with 86400000000 in *.
    change (timedelta_of 7 0) with 604800000000.
    change (CACHE_TTL_SECONDS * US_PER_SECOND) with 300000000 in Hus.
    destruct (Z.ltb_spec (clock w - start_date q) 86400000000) as [Ha |];
      [| destruct (clock w - start_date q <? timedelta_of 7 0); discriminate Hs].
    pose proof (N2Z.is_nonneg us).
    destruct (Z.ltb_spec (clock w + Z.of_N us - start_date q) 86400000000);
      [discriminate |].
    destruct (Z.ltb_spec (clock w + Z.of_N us - start_date q) 604800000000);
      [discriminate | lia].
  - cbn [advance clock]. rewrite Hclock. exact Hg.
  - cbn [advance clock redis]. rewrite Hclock, Hredis. cbn [redis_lookup].
    rewrite String.eqb_refl.
    destruct (Z.ltb_spec (clock w + Z.of_N us)
                (clock w + CACHE_TTL_SECONDS * US_PER_SECOND)); [reflexivity | lia].
  - exists w2. exact H2.
Qed.

(** C5 fails on the code for a hot query whose range holds no row.  The
    first call finds nothing in Redis, asks the store and writes the empty
    row list under the key; one second later the entry is live, yet the
    second call reads it, takes the empty list for a miss, asks the store
    again and returns [cached] false. *)
Theorem empty_rows_are_never_served_from_cache :
  _get_cache_strategy t0 q_active_users.(start_date) = HOT
  /\ snd first_call
     = Ret {| data := []; cached := false; query_time_ms := total_ms 0;
              data_freshness := Some last_refresh0 |}
  /\ redis_lookup (t0 + 1000000) (_build_cache_key q_active_users)
       (fst first_call).(redis)
     = Some (JsonRows [])
  /\ snd second_call
     = Ret {| data := []; cached := false; query_time_ms := total_ms 0;
              data_freshness := Some last_refresh0 |}
  /\ (fst second_call).(io)
     = ((fst first_call).(io)
        ++ [IoCacheGet (_build_cache_key q_active_users);
            IoStore (_query_database_sql q_active_users);
            IoCacheSet (_build_cache_key q_active_users) CACHE_TTL_SECONDS;
            IoStore "SELECT last_refresh FROM mv_metadata WHERE view_name = 'metrics'"])%list.
Proof. repeat split; vm_compute; reflexivity. Qed.

Example rows_are_served_from_cache :
  exists w1 r1 w2,
    run env_ok (init_world t0 100) (get_metric q_active_users) = (w1, Ret r1)
    /\ run env_ok (advance w1 1000000) (get_metric q_active_users)
       = (w2, Ret {| data := r1.(data); cached := true;
                     query_time_ms := total_ms 0; data_freshness := None |})
    /\ w2.(io) = (w1.(io) ++ [IoCacheGet (_build_cache_key q_active_users)])%list.
Proof.
  eexists. eexists. eexists.
  split; [vm_compute; reflexivity |]. split; vm_compute; reflexivity.
Qed.

(** ** Validation *)

Lemma run_vis (env : Env) (w : World) {A X} (o : op X) (k : X -> coro A) :
  run env w (Vis o k)
  = match handle env w o with
    | Some (w', x) => run env w' (k x)
    | None => (w, Vis o k)
    end.
Proof. reflexivity. Qed.

Lemma handle_io_extends (env : Env) (w w' : World) {X} (o : op X) (x : X) :
  handle env w o = Some (w', x) -> exists l, w'.(io) = (w.(io) ++ l)%list.
Proof.
  destruct o; cbn [handle]; intros H.
  - injection H as <- _. exists []. now rewrite app_nil_r.
  - destruct (cache_get_fault env (clock w) key); injection H as <- _;
      now exists [IoCacheGet key].
  - destruct (cache_set_fault env (clock w) key); injection H as <- _;
      now exists [IoCacheSet key ttl].
  - injection H as <- _. now exists [IoStore sql].
  - injection H as <- _. now exists [IoStore sql].
  - destruct (permits w); [discriminate |]. injection H as <- _.
    exists []. cbn. now rewrite app_nil_r.
  - injection H as <- _. exists []. cbn. now rewrite app_nil_r.
  - injection H as <- _. exists []. cbn. now rewrite app_nil_r.
Qed.

Lemma run_io_extends {A} (c : coro A) :
  forall (env : Env) (w : World),
    exists l, (fst (run env w c)).(io) = (w.(io) ++ l)%list.
Proof.
  induction c as [a | e | X o k IH]; intros env w;
    try (exists []; cbn; now rewrite app_nil_r).
  rewrite run_vis. destruct (handle env w o) as [[w1 x] |] eqn:Hh.
  - destruct (handle_io_extends env w w1 o x Hh) as [l1 H1].
    destruct (IH x env w1) as [l2 H2].
    exists (l1 ++ l2)%list. now rewrite H2, H1, app_assoc.
  - exists []. cbn. now rewrite app_nil_r.
Qed.

(** C6 (as stated) fails: a query over an empty range is answered like any
    other, after a cache read, a store query and a cache write; a query for a
    metric without a view is rejected only by the store, after a cache read
    and the store query, with the exception of the store. *)
Lemma malformed_query_counterexample :
  q_empty_range.(start_date) >= q_empty_range.(end_date)
  /\ snd (run env_ok (init_world t0 100) (get_metric q_empty_range))
     = Ret {| data := map row_to_dict sample_rows; cached := false;
              query_time_ms := total_ms 0;
              data_freshness := Some last_refresh0 |}
  /\ (fst (run env_ok (init_world t0 100) (get_metric q_empty_range))).(io)
     = [IoCacheGet (_build_cache_key q_empty_range);
        IoStore (_query_database_sql q_empty_range);
        IoCacheSet (_build_cache_key q_empty_range) CACHE_TTL_SECONDS;
        IoStore "SELECT last_refresh FROM mv_metadata WHERE view_name = 'metrics'"]
  /\ snd (run env_missing_view (init_world t0 100) (get_metric q_malformed))
     = Raise (Exn "ProgrammingError" "relation does not exist")
  /\ (fst (run env_missing_view (init_world t0 100) (get_metric q_malformed))).(io)
     = [IoCacheGet (_build_cache_key q_malformed);
        IoStore (_query_database_sql q_malformed)].
Proof. repeat split; vm_compute; try reflexivity. discriminate. Qed.

(** C6 (amended). [get_metric] checks neither the range nor the metric
    type of the query: for every query (its filter values being JSON
    scalars), malformed or not, a call that finds a free permit is not
    rejected before I/O; it runs to its end, and its first I/O is the one its
    cache strategy asks for, a read of the query's cache key when the
    strategy is HOT or WARM and the store query when it is COLD. *)
Theorem get_metric_validates_nothing :
  forall (env : Env) (w : World) (q : MetricQuery),
    (0 < permits w)%nat ->
    finished (snd (run env w (get_metric q))) = true
    /\ (exists rest,
           (fst (run env w (get_metric q))).(io)
           = (w.(io) ++ first_io w.(clock) q :: rest)%list).
Proof.
  intros env w q Hp. split.
  - apply (run_scoped (get_metric q) env w 0 (get_metric_scoped q)). lia.
  - unfold get_metric, first_io. cbn [bind perform].
    do 2 (rewrite run_vis; cbn [handle]).
    destruct (_get_cache_strategy (clock w) (start_date q)).
    1,2: unfold _get_from_cache, await; cbn [bind try_except];
      rewrite run_vis; cbn [handle];
      destruct (cache_get_fault env (clock w) (_build_cache_key q));
      match goal with
      | |- exists _, io (fst (run ?e ?w1 ?c)) = _ =>
          destruct (run_io_extends c e w1) as [l Hl]; exists l; rewrite Hl;
          cbn [with_io io]; now rewrite <- app_assoc
      end.
    unfold async_with_semaphore, _query_database, await. cbn [bind perform finally].
    rewrite run_vis. cbn [handle].
    destruct (permits w) as [| n] eqn:Hn; [lia |].
    rewrite run_vis. cbn [handle].
    match goal with
    | |- exists _, io (fst (run ?e ?w1 ?c)) = _ =>
        destruct (run_io_extends c e w1) as [l Hl]; exists l; rewrite Hl;
        cbn [with_io with_permits io]; now rewrite <- app_assoc
    end.
Qed.

Lemma get_metric_validates_nothing_witness :
  (0 < permits (init_world t0 100))%nat
  /\ finished (snd (run env_missing_view (init_world t0 100)
                      (get_metric q_malformed))) = true.
Proof.
  split; [cbn; lia |].
  apply (get_metric_validates_nothing env_missing_view (init_world t0 100)
           q_malformed).
  cbn; lia.
Defined.

(** ** Instances *)

Lemma env_cache_down_store_answers : store_answers env_cache_down.
Proof. split; intros; eexists; reflexivity. Qed.

Lemma cache_faults_are_absorbed_witness :
  store_answers env_cache_down
  /\ (0 < permits (init_world t0 100))%nat
  /\ exists w' r,
       run env_cache_down (init_world t0 100) (get_metric q_active_users)
       = (w', Ret r).
Proof.
  split; [exact env_cache_down_store_answers |].
  split; [cbn; lia |].
  apply (cache_faults_are_absorbed env_cache_down (init_world t0 100)
           (_build_cache_key q_active_users)).
  - exact env_cache_down_store_answers.
  - cbn; lia.
Defined.


Lemma semaphore_permits_restored_witness :
  gather (snd (run_pool env_missing_view round_robin
                 (init_world t0 100,
                  map (fun query => spawn (get_metric query))
                    [q_active_users; q_malformed; q_cold])))
  <> None
  /\ permits (fst (run_pool env_missing_view round_robin
                     (init_world t0 100,
                      map (fun query => spawn (get_metric query))
                        [q_active_users; q_malformed; q_cold])))
     = 100%nat.
Proof.
  destruct (gather (snd (run_pool env_missing_view round_robin
                           (init_world t0 100,
                            map (fun query => spawn (get_metric query))
                              [q_active_users; q_malformed; q_cold]))))
    as [results |] eqn:Hg; [| vm_compute in Hg; discriminate Hg].
  split; [discriminate |].
  exact (proj2 (proj2 (semaphore_permits_restored env_missing_view round_robin
                         (init_world t0 100)
                         [q_active_users; q_malformed; q_cold]))
           results Hg).
Defined.

(** * Further properties *)

(** ** Shape of the results *)

Lemma get_metric_returns_shape (q : MetricQuery) :
  returns result_shape (get_metric q).
Proof.
  unfold get_metric, _get_from_cache, _set_cache, _query_database,
    _get_materialized_view_freshness.
  walk_leaves;
    solve [ left; cbn; repeat split; (reflexivity || discriminate)
          | right; cbn; split; [reflexivity | discriminate] ].
Qed.

Lemma returns_descends {A} (P : A -> Prop) (c c' : coro A) :
  descends c c' -> returns P c -> returns P c'.
Proof.
  induction 1 as [c | X o k x c' _ IH]; intros H; [exact H |].
  apply IH. exact (H x).
Qed.

Lemma pool_task_of_query (env : Env) (sched : list action) (w : World)
  (queries : list MetricQuery) (t : task) :
  In t (snd (run_pool env sched (w, batch_tasks queries))) ->
  exists q, In q queries /\ descends (get_metric q) t.(code).
Proof.
  intros Hin. apply In_nth_error in Hin. destruct Hin as [i Hi].
  destruct (Forall2_nth_error _ _ _ i t (run_pool_tasks_of env sched w queries) Hi)
    as (q & Hq & Hd).
  exists q. split; [eapply nth_error_In; exact Hq | exact Hd].
Qed.

(** X1. Whatever the schedule and the answers of Redis and the store, a
    result that [get_metric] returns has one of two shapes: [cached] true
    with at least one row and no [data_freshness], or [cached] false with a
    [data_freshness]. *)
Theorem result_is_cached_or_fresh :
  forall (env : Env) (sched : list action) (w : World)
         (queries : list MetricQuery) (t : task) (r : MetricResult),
    In t (snd (run_pool env sched (w, batch_tasks queries))) ->
    t.(code) = Ret r ->
    (r.(cached) = true /\ r.(data) <> [] /\ r.(data_freshness) = None)
    \/ (r.(cached) = false /\ r.(data_freshness) <> None).
Proof.
  intros env sched w queries t r Hin Hc.
  destruct (pool_task_of_query env sched w queries t Hin) as (q & _ & Hd).
  pose proof (returns_descends result_shape _ _ Hd (get_metric_returns_shape q)) as H.
  rewrite Hc in H. exact H.
Qed.

Lemma result_is_cached_or_fresh_witness :
  exists t r,
    In t (snd (run_pool env_missing_view round_robin
                 (init_world t0 100,
                  batch_tasks [q_active_users; q_malformed; q_cold])))
    /\ t.(code) = Ret r
    /\ r.(cached) = false /\ r.(data_freshness) <> None.
Proof.
  set (r := {| data := map row_to_dict sample_rows; cached := false;
               query_time_ms := total_ms 7000;
               data_freshness := Some last_refresh0 |}).
  set (t := {| code := Ret r; held := 0 |}).
  assert (Hin : In t (snd (run_pool env_missing_view round_robin
                             (init_world t0 100,
                              batch_tasks [q_active_users; q_malformed; q_cold]))))
    by (vm_compute; left; reflexivity).
  exists t, r. split; [exact Hin |]. split; [reflexivity |].
  destruct (result_is_cached_or_fresh env_missing_view round_robin
              (init_world t0 100) [q_active_users; q_malformed; q_cold] t r
              Hin eq_refl) as [[Hc _] | H]; [discriminate Hc | exact H].
Defined.

(** ** Load on the store *)

Lemma run_pool_Forall (env : Env) (P : task -> Prop) :
  (forall w t w' t', P t -> step_task env w t = Some (w', t') -> P t') ->
  forall (sched : list action) (s : World * list task),
    Forall P (snd s) -> Forall P (snd (run_pool env sched s)).
Proof.
  intros Hstep. induction sched as [| a sched IH]; intros s Hs; [exact Hs |].
  cbn [run_pool fold_left]. apply IH.
  destruct s as [w pool]. cbn [snd] in Hs.
  destruct a as [i | us]; cbn [step_pool]; [| exact Hs].
  destruct (nth_error pool i) as [t |] eqn:Hi; [| exact Hs].
  destruct (step_task env w t) as [[w1 t1] |] eqn:Hst; [| exact Hs].
  cbn [snd]. apply (Forall_set_nth P); [exact Hs |].
  eapply Hstep; [| exact Hst].
  exact (proj1 (Forall_forall _ _) Hs t (nth_error_In _ _ Hi)).
Qed.

Lemma get_metric_gated (q : MetricQuery) : gated 0 (get_metric q).
Proof.
  unfold get_metric, _get_from_cache, _set_cache, _query_database,
    _get_materialized_view_freshness.
  walk_leaves.
Qed.

Lemma step_task_gated (env : Env) (w w' : World) (t t' : task) :
  task_gated t -> step_task env w t = Some (w', t') -> task_gated t'.
Proof.
  unfold task_gated, step_task. destruct t as [c h]; cbn [code held].
  destruct c as [a | e | X o k]; try discriminate.
  cbn [gated]. intros [_ Hk].
  destruct (handle env w o) as [[w1 x] |]; [| discriminate].
  intros H. injection H as _ <-. apply Hk.
Qed.

Lemma in_flight_held (pool : list task) :
  Forall task_gated pool -> (in_flight pool <= total_held pool)%nat.
Proof.
  unfold in_flight. induction 1 as [| t pool Ht _ IH]; [cbn; lia |].
  cbn [filter total_held fold_right]. fold (total_held pool).
  destruct (at_store t) eqn:Hat; [| lia].
  cbn [List.length].
  unfold at_store in Hat. unfold task_gated in Ht.
  destruct (code t) as [r | e | X o k]; try discriminate.
  cbn [gated] in Ht. destruct Ht as [Hh _]. rewrite (Hh Hat). lia.
Qed.

(** X2. However many calls run at once and however the event loop
    schedules them, the store queries in flight never outnumber the permits
    the semaphore started with: queries in flight plus free permits stay
    within the initial count. *)
Theorem store_queries_bounded :
  forall (env : Env) (sched : list action) (w : World)
         (queries : list MetricQuery),
    let s := run_pool env sched (w, batch_tasks queries) in
    (in_flight (snd s) + permits (fst s) <= permits w)%nat.
Proof.
  intros env sched w queries s.
  destruct (spawned_scoped queries) as [Hs0 Hh0]. fold (batch_tasks queries) in *.
  assert (Hg : Forall task_gated (snd s)).
  { apply (run_pool_Forall env task_gated
             (fun w t w' t' => step_task_gated env w w' t t')). cbn [snd].
    unfold batch_tasks. apply Forall_forall. intros t Ht.
    apply in_map_iff in Ht. destruct Ht as [q [<- _]]. apply get_metric_gated. }
  destruct s as [w' pool'] eqn:Hrun. subst s.
  destruct (run_pool_invariant _ _ _ _ _ _ Hs0 Hrun) as [_ Hp].
  cbn [fst snd] in *. pose proof (in_flight_held pool' Hg). lia.
Qed.

Example gate_state_in_flight :
  in_flight (snd gate_state) = 1%nat /\ permits (fst gate_state) = 0%nat.
Proof. split; reflexivity. Qed.

(** ** I/O of one call *)

(** X3. The I/O of a call that finds a free permit is fixed by what the
    collaborators answer.  A call the cache serves makes one cache read and
    nothing else.  Otherwise the call reads the cache first unless its
    strategy is COLD, then sends the store query; if the store query raises
    that is all; if it answers, the call then writes the key with the TTL of
    its strategy (300 s for HOT, 600 s for WARM, no write for COLD) and last
    asks for the freshness.  With a COLD strategy Redis is left untouched. *)
Theorem call_io_orders :
  forall (env : Env) (w : World) (q : MetricQuery),
    (0 < permits w)%nat ->
    let key := _build_cache_key q in
    let sql := _query_database_sql q in
    let strategy := _get_cache_strategy w.(clock) q.(start_date) in
    let w' := fst (run env w (get_metric q)) in
    let read := match strategy with COLD => [] | _ => [IoCacheGet key] end in
    let write := match ttl_of strategy with
                 | Some ttl => [IoCacheSet key ttl]
                 | None => []
                 end in
    w'.(io)
    = (w.(io)
       ++ match cache_serves env w q with
          | Some _ => [IoCacheGet key]
          | None =>
              match env.(db_execute) w.(clock) sql (_query_database_params q) with
              | inl _ => read ++ [IoStore sql]
              | inr _ => read ++ [IoStore sql] ++ write ++ [IoStore FRESHNESS_SQL]
              end
          end)%list
    /\ (strategy = COLD -> w'.(redis) = w.(redis)).
Proof.
  intros env w q Hp. cbn zeta.
  unfold cache_serves, get_metric, _get_from_cache, _query_database, _set_cache,
    _get_materialized_view_freshness, FRESHNESS_SQL.
  destruct (permits w) as [| n] eqn:Hn; [lia |].
  destruct (db_execute env (clock w) (_query_database_sql q)
              (_query_database_params q)) eqn:Hdb;
    destruct (cache_get_fault env (clock w) (_build_cache_key q)) eqn:Hgf;
    destruct (redis_lookup (clock w) (_build_cache_key q) (redis w))
      as [[[| ? ?] | ?] |] eqn:Hlk;
    destruct (_get_cache_strategy (clock w) (start_date q)) eqn:Hs;
    cbn [ttl_of]; run_cases;
    rewrite <- ?app_assoc; cbn [app];
    (split; [reflexivity | intros H; first [discriminate H | reflexivity]]).
Qed.

Lemma call_io_orders_witness :
  (0 < permits (init_world t0 100))%nat
  /\ (fst (run env_store_down (init_world t0 100) (get_metric q_cold))).(io)
     = [IoStore (_query_database_sql q_cold)].
Proof.
  split; [cbn; lia |].
  destruct (call_io_orders env_store_down (init_world t0 100) q_cold)
    as [Hl _]; [cbn; lia |].
  exact Hl.
Defined.

(** ** One call, step by step *)

(** X4. A call that the cache serves needs neither a permit nor the
    store: whatever the number of free permits, zero included, it returns the
    cached rows with [cached] true after a single cache read, and changes
    neither Redis nor the semaphore. *)
Theorem cache_hit_is_not_gated :
  forall (env : Env) (w : World) (q : MetricQuery) (rows : list Row),
    cache_serves env w q = Some rows ->
    let s := run env w (get_metric q) in
    snd s = Ret {| data := rows; cached := true; query_time_ms := total_ms 0;
                   data_freshness := None |}
    /\ (fst s).(io) = (w.(io) ++ [IoCacheGet (_build_cache_key q)])%list
    /\ (fst s).(permits) = w.(permits)
    /\ (fst s).(redis) = w.(redis).
Proof.
  intros env w q rows H. cbn zeta. revert H.
  unfold cache_serves, get_metric, _get_from_cache.
  destruct (_get_cache_strategy (clock w) (start_date q)) eqn:Hs; run_cases;
    intros H; try discriminate H; injection H as <-;
    rewrite Z.sub_diag; repeat split.
Qed.

Lemma cache_hit_is_not_gated_witness :
  cache_serves env_ok (with_permits (fst first_ok_call) 0) q_active_users
  = Some (map row_to_dict sample_rows)
  /\ snd (run env_ok (with_permits (fst first_ok_call) 0)
            (get_metric q_active_users))
     = Ret {| data := map row_to_dict sample_rows; cached := true;
              query_time_ms := total_ms 0; data_freshness := None |}.
Proof.
  assert (H : cache_serves env_ok (with_permits (fst first_ok_call) 0)
                q_active_users
              = Some (map row_to_dict sample_rows)) by (vm_compute; reflexivity).
  split; [exact H |].
  exact (proj1 (cache_hit_is_not_gated env_ok _ q_active_users _ H)).
Defined.



(** X6. When the store query fails, a call that the cache does not serve
    raises the store's exception as it is; it gives the permit back, writes
    nothing to Redis and makes no freshness query: the store query is its
    last I/O. *)
Theorem store_failure_propagates :
  forall (env : Env) (w : World) (q : MetricQuery) (e : exn),
    cache_serves env w q = None ->
    (0 < permits w)%nat ->
    env.(db_execute) w.(clock) (_query_database_sql q) (_query_database_params q)
    = inl e ->
    let s := run env w (get_metric q) in
    snd s = Raise e
    /\ (fst s).(permits) = w.(permits)
    /\ (fst s).(redis) = w.(redis)
    /\ exists l,
         (fst s).(io) = (w.(io) ++ l ++ [IoStore (_query_database_sql q)])%list
         /\ (l = [] \/ l = [IoCacheGet (_build_cache_key q)]).
Proof.
  intros env w q e H Hp Hdb. cbn zeta. revert H.
  unfold cache_serves, get_metric, _get_from_cache, _query_database, _set_cache,
    _get_materialized_view_freshness.
  destruct (permits w) as [| n] eqn:Hn; [lia |].
  destruct (_get_cache_strategy (clock w) (start_date q)) eqn:Hs; run_cases;
    intros H; try discriminate H;
    (repeat split; try reflexivity);
    rewrite <- ?app_assoc; cbn [app];
    first [ exists []; split; [reflexivity | left; reflexivity]
          | exists [IoCacheGet (_build_cache_key q)];
            split; [reflexivity | right; reflexivity] ].
Qed.

Lemma store_failure_propagates_witness :
  snd (run env_store_down (init_world t0 100) (get_metric q_active_users))
  = Raise (Exn "OperationalError" "connection refused")
  /\ (fst (run env_store_down (init_world t0 100)
             (get_metric q_active_users))).(permits)
     = 100%nat.
Proof.
  destruct (store_failure_propagates env_store_down (init_world t0 100)
              q_active_users (Exn "OperationalError" "connection refused"))
    as (H1 & H2 & _).
  - reflexivity.
  - cbn; lia.
  - reflexivity.
  - split; [exact H1 | exact H2].
Defined.

(** ** What a miss leaves in the cache *)

Lemma miss_populates (env : Env) (w : World) (q : MetricQuery)
  (rows : list DbRow) (ttl : Z) :
  cache_serves env w q = None ->
  (0 < permits w)%nat ->
  env.(db_execute) w.(clock) (_query_database_sql q) (_query_database_params q)
  = inr rows ->
  env.(cache_set_fault) w.(clock) (_build_cache_key q) = None ->
  ttl_of (_get_cache_strategy w.(clock) q.(start_date)) = Some ttl ->
  (fst (run env w (get_metric q))).(clock) = w.(clock)
  /\ (fst (run env w (get_metric q))).(redis)
     = (_build_cache_key q,
        (JsonRows (map row_to_dict rows), w.(clock) + ttl * US_PER_SECOND))
       :: w.(redis).
Proof.
  intros H Hp Hdb Hset Httl. revert H Httl.
  unfold cache_serves, get_metric, _get_from_cache, _query_database, _set_cache,
    _get_materialized_view_freshness.
  destruct (permits w) as [| n] eqn:Hn; [lia |].
  destruct (_get_cache_strategy (clock w) (start_date q)) eqn:Hs;
    cbn [ttl_of]; run_cases;
    intros H Httl; try discriminate H; try discriminate Httl;
    injection Httl as <-; split; reflexivity.
Qed.

Lemma lookup_fresh_entry (now expiry : datetime) (key : string) (v : bytes)
  (store : list (string * (bytes * datetime))) :
  redis_lookup now key ((key, (v, expiry)) :: store)
  = if now <? expiry then Some v else None.
Proof. cbn [redis_lookup]. now rewrite String.eqb_refl. Qed.

(** X7. After a miss whose store query answered and whose cache write went
    through, the rows are readable under the query's key for exactly the TTL
    of the strategy (300 s when HOT, 600 s when WARM) and gone once it is
    over, whether or not the freshness query succeeded afterwards. *)
Theorem miss_is_cached_for_ttl :
  forall (env : Env) (w : World) (q : MetricQuery) (rows : list DbRow)
         (ttl : Z) (us : N),
    cache_serves env w q = None ->
    (0 < permits w)%nat ->
    env.(db_execute) w.(clock) (_query_database_sql q) (_query_database_params q)
    = inr rows ->
    env.(cache_set_fault) w.(clock) (_build_cache_key q) = None ->
    ttl_of (_get_cache_strategy w.(clock) q.(start_date)) = Some ttl ->
    redis_lookup (w.(clock) + Z.of_N us) (_build_cache_key q)
      (fst (run env w (get_metric q))).(redis)
    = if Z.of_N us <? ttl * US_PER_SECOND
      then Some (JsonRows (map row_to_dict rows))
      else None.
Proof.
  intros env w q rows ttl us H Hp Hdb Hset Httl.
  destruct (miss_populates env w q rows ttl H Hp Hdb Hset Httl) as [_ Hr].
  rewrite Hr, lookup_fresh_entry.
  destruct (Z.ltb_spec (clock w + Z.of_N us) (clock w + ttl * US_PER_SECOND));
    destruct (Z.ltb_spec (Z.of_N us) (ttl * US_PER_SECOND));
    try reflexivity; lia.
Qed.

Lemma miss_is_cached_for_ttl_witness :
  redis_lookup ((init_world t0 100).(clock) + Z.of_N 299999999)
    (_build_cache_key q_active_users) (fst first_ok_call).(redis)
  = Some (JsonRows (map row_to_dict sample_rows)).
Proof.
  apply (miss_is_cached_for_ttl env_ok (init_world t0 100) q_active_users
           sample_rows 300 299999999).
  - reflexivity.
  - cbn; lia.
  - reflexivity.
  - reflexivity.
  - reflexivity.
Defined.

(** X8. After such a miss that brought at least one row, the same call made
    again before the TTL is over, while the strategy is not COLD and Redis
    can be read, is served from the cache: it returns the same rows with
    [cached] true and its only I/O is the cache read. *)
Theorem repeat_call_is_served :
  forall (env : Env) (w : World) (q : MetricQuery) (rows : list DbRow)
         (ttl : Z) (us : N),
    cache_serves env w q = None ->
    (0 < permits w)%nat ->
    env.(db_execute) w.(clock) (_query_database_sql q) (_query_database_params q)
    = inr rows ->
    env.(cache_set_fault) w.(clock) (_build_cache_key q) = None ->
    ttl_of (_get_cache_strategy w.(clock) q.(start_date)) = Some ttl ->
    rows <> [] ->
    Z.of_N us < ttl * US_PER_SECOND ->
    _get_cache_strategy (w.(clock) + Z.of_N us) q.(start_date) <> COLD ->
    env.(cache_get_fault) (w.(clock) + Z.of_N us) (_build_cache_key q) = None ->
    let w1 := advance (fst (run env w (get_metric q))) us in
    snd (run env w1 (get_metric q))
    = Ret {| data := map row_to_dict rows; cached := true;
             query_time_ms := total_ms 0; data_freshness := None |}
    /\ (fst (run env w1 (get_metric q))).(io)
       = (w1.(io) ++ [IoCacheGet (_build_cache_key q)])%list.
Proof.
  intros env w q rows ttl us H Hp Hdb Hset Httl Hrows Hus Hcold Hget. cbn zeta.
  destruct (miss_populates env w q rows ttl H Hp Hdb Hset Httl) as [Hc Hr].
  destruct rows as [| row rows]; [contradiction |].
  destruct (cached_rows_are_served env
              (advance (fst (run env w (get_metric q))) us) q
              (row_to_dict row) (map row_to_dict rows)) as (w2 & H2 & Hio & _).
  - cbn [advance clock]. now rewrite Hc.
  - cbn [advance clock]. now rewrite Hc.
  - cbn [advance clock redis]. rewrite Hc, Hr, lookup_fresh_entry.
    destruct (Z.ltb_spec (clock w + Z.of_N us) (clock w + ttl * US_PER_SECOND));
      [reflexivity | lia].
  - rewrite H2. cbn [fst snd map]. split; [reflexivity | exact Hio].
Qed.

Lemma repeat_call_is_served_witness :
  snd (run env_ok (advance (fst first_ok_call) 1000000)
         (get_metric q_active_users))
  = Ret {| data := map row_to_dict sample_rows; cached := true;
           query_time_ms := total_ms 0; data_freshness := None |}.
Proof.
  apply (repeat_call_is_served env_ok (init_world t0 100) q_active_users
           sample_rows 300 1000000).
  - reflexivity.
  - cbn; lia.
  - reflexivity.
  - reflexivity.
  - reflexivity.
  - discriminate.
  - reflexivity.
  - vm_compute. discriminate.
  - reflexivity.
Defined.

(** X9. When the freshness query fails after the store query answered, the
    call raises the exception of the freshness query: the rows it fetched are
    not returned, although the permit is back and, with a HOT or WARM
    strategy and a writable Redis, the rows are already in the cache. *)
Theorem freshness_failure_fails_the_call :
  forall (env : Env) (w : World) (q : MetricQuery) (rows : list DbRow)
         (e : exn),
    cache_serves env w q = None ->
    (0 < permits w)%nat ->
    env.(db_execute) w.(clock) (_query_database_sql q) (_query_database_params q)
    = inr rows ->
    env.(db_first) w.(clock) FRESHNESS_SQL = inl e ->
    let s := run env w (get_metric q) in
    snd s = Raise e
    /\ (fst s).(permits) = w.(permits)
    /\ forall ttl,
         env.(cache_set_fault) w.(clock) (_build_cache_key q) = None ->
         ttl_of (_get_cache_strategy w.(clock) q.(start_date)) = Some ttl ->
         redis_lookup w.(clock) (_build_cache_key q) (fst s).(redis)
         = Some (JsonRows (map row_to_dict rows)).
Proof.
  intros env w q rows e H Hp Hdb Hfr. cbn zeta. split; [| split].
  - revert H.
    unfold cache_serves, get_metric, _get_from_cache, _query_database, _set_cache,
      _get_materialized_view_freshness.
    unfold FRESHNESS_SQL in Hfr.
    destruct (permits w) as [| n] eqn:Hn; [lia |].
    destruct (_get_cache_strategy (clock w) (start_date q)) eqn:Hs; run_cases;
      intros H; try discriminate H; reflexivity.
  - revert H.
    unfold cache_serves, get_metric, _get_from_cache, _query_database, _set_cache,
      _get_materialized_view_freshness.
    unfold FRESHNESS_SQL in Hfr.
    destruct (permits w) as [| n] eqn:Hn; [lia |].
    destruct (_get_cache_strategy (clock w) (start_date q)) eqn:Hs; run_cases;
      intros H; try discriminate H; reflexivity.
  - intros ttl Hset Httl.
    destruct (miss_populates env w q rows ttl H Hp Hdb Hset Httl) as [_ Hr].
    rewrite Hr, lookup_fresh_entry.
    assert (0 < ttl * US_PER_SECOND).
    { destruct (_get_cache_strategy (clock w) (start_date q));
        cbn in Httl; try discriminate Httl; injection Httl as <-; reflexivity. }
    destruct (Z.ltb_spec (clock w) (clock w + ttl * US_PER_SECOND));
      [reflexivity | lia].
Qed.

Lemma freshness_failure_fails_the_call_witness :
  snd (run env_freshness_down (init_world t0 100) (get_metric q_active_users))
  = Raise (Exn "OperationalError" "statement timeout")
  /\ redis_lookup t0 (_build_cache_key q_active_users)
       (fst (run env_freshness_down (init_world t0 100)
               (get_metric q_active_users))).(redis)
     = Some (JsonRows (map row_to_dict sample_rows)).
Proof.
  destruct (freshness_failure_fails_the_call env_freshness_down
              (init_world t0 100) q_active_users sample_rows
              (Exn "OperationalError" "statement timeout"))
    as (H1 & _ & H3).
  - reflexivity.
  - cbn; lia.
  - reflexivity.
  - reflexivity.
  - split; [exact H1 |]. apply (H3 300); reflexivity.
Defined.

(** ** Bound parameters *)

Lemma dict_get_set {V} (k k' : string) (v : V) (d : dict V) :
  dict_get k (dict_set k' v d)
  = if String.eqb k k' then Some v else dict_get k d.
Proof.
  induction d as [| [k1 v1] d IH]; cbn [dict_set dict_get].
  - reflexivity.
  - destruct (String.eqb_spec k' k1) as [-> | Hne]; cbn [dict_get].
    + destruct (String.eqb k k1); reflexivity.
    + rewrite IH. destruct (String.eqb_spec k k1) as [-> | Hne1].
      * destruct (String.eqb_spec k1 k'); [congruence | reflexivity].
      * reflexivity.
Qed.

Lemma dict_get_absent {V} (k : string) (d : dict V) :
  ~ In k (map fst d) -> dict_get k d = None.
Proof.
  induction d as [| [k1 v1] d IH]; cbn; intros H; [reflexivity |].
  destruct (String.eqb_spec k k1) as [-> | _]; [tauto |]. apply IH. tauto.
Qed.

Lemma dict_get_update {V} (k : string) (extra : dict V) :
  NoDup (map fst extra) ->
  forall base,
    dict_get k (dict_update base extra)
    = match dict_get k extra with
      | Some v => Some v
      | None => dict_get k base
      end.
Proof.
  unfold dict_update.
  induction extra as [| [k1 v1] extra IH]; intros Hnd base; [reflexivity |].
  cbn [map fst] in Hnd. inversion Hnd as [| ? ? Hnot Hnd']; subst.
  cbn [fold_left fst snd dict_get]. rewrite (IH Hnd'), dict_get_set.
  destruct (String.eqb_spec k k1) as [-> | _].
  - now rewrite (dict_get_absent k1 extra Hnot).
  - reflexivity.
Qed.

Lemma dict_get_map {V W} (f : V -> W) (k : string) (d : dict V) :
  dict_get k (map (fun kv => (fst kv, f (snd kv))) d)
  = option_map f (dict_get k d).
Proof.
  induction d as [| [k1 v1] d IH]; cbn; [reflexivity |].
  destruct (String.eqb k k1); [reflexivity | exact IH].
Qed.

(** X10. The parameters bound to the store query follow the filter
    mapping first: every filter entry, whitelisted or not, is bound under
    its own name, and a filter named like one of the fixed parameters
    ([granularity], [start_date], [end_date]) takes the place of the value of
    the query; only names the filters do not use keep the query's values. *)
Theorem filters_override_bound_parameters :
  forall (q : MetricQuery) (f : dict JVal) (k : string),
    q.(filters) = Some f ->
    NoDup (map fst f) ->
    dict_get k (_query_database_params q)
    = match dict_get k f with
      | Some v => Some (PVal v)
      | None =>
          dict_get k [("granularity", PStr q.(granularity));
                      ("start_date", PDate q.(start_date));
                      ("end_date", PDate q.(end_date))]
      end.
Proof.
  intros q f k Hf Hnd. unfold _query_database_params. rewrite Hf.
  rewrite dict_get_update.
  - rewrite (dict_get_map PVal). destruct (dict_get k f); reflexivity.
  - rewrite map_map. cbn [fst]. exact Hnd.
Qed.

Lemma filters_override_bound_parameters_witness :
  dict_get "end_date"
    (_query_database_params
       (with_filters q_active_users
          (Some [("tenant_id", JStr "t1"); ("end_date", JStr "y")])))
  = Some (PVal (JStr "y")).
Proof.
  apply (filters_override_bound_parameters
           (with_filters q_active_users
              (Some [("tenant_id", JStr "t1"); ("end_date", JStr "y")]))
           [("tenant_id", JStr "t1"); ("end_date", JStr "y")] "end_date").
  - reflexivity.
  - repeat constructor; cbn; intuition discriminate.
Defined.

(** ** Ageing *)

(** X11. A query only ever ages: as time passes its strategy moves from HOT
    to WARM to COLD and never back; a query whose range starts in the future
    is HOT. *)
Theorem strategy_only_ages :
  forall (now1 now2 start_date : datetime),
    (now1 <= now2 ->
     (rank (_get_cache_strategy now1 start_date)
      <= rank (_get_cache_strategy now2 start_date))%nat)
    /\ (now1 <= start_date -> _get_cache_strategy now1 start_date = HOT).
Proof.
  intros now1 now2 start_date. unfold _get_cache_strategy.
  change (timedelta_of 0 HOT_DATA_HOURS) with 86400000000.
  change (timedelta_of 7 0) with 604800000000.
  split; intros H.
  - destruct (Z.ltb_spec (now1 - start_date) 86400000000);
      destruct (Z.ltb_spec (now1 - start_date) 604800000000);
      destruct (Z.ltb_spec (now2 - start_date) 86400000000);
      destruct (Z.ltb_spec (now2 - start_date) 604800000000);
      cbn [rank]; lia.
  - destruct (Z.ltb_spec (now1 - start_date) 86400000000); [reflexivity | lia].
Qed.

Lemma strategy_only_ages_witness :
  (rank (_get_cache_strategy t0 q_active_users.(start_date))
   <= rank (_get_cache_strategy (t0 + Z.of_N YEAR_US)%Z
              q_active_users.(start_date)))%nat.
Proof.
  apply (strategy_only_ages t0 (t0 + Z.of_N YEAR_US) q_active_users.(start_date)).
  vm_compute. discriminate.
Defined.

(** ** The log of a batch *)

Lemma process_results_world (env : Env) (results : list outcome) :
  forall (i : nat) (acc : list MetricResult) (w : World),
    let w' := fst (run env w (process_results i results acc)) in
    w'.(log) = (w.(log) ++ error_events i results)%list
    /\ w'.(clock) = w.(clock) /\ w'.(redis) = w.(redis)
    /\ w'.(permits) = w.(permits) /\ w'.(io) = w.(io).
Proof.
  induction results as [| o results IH]; intros i acc w; cbn zeta.
  - cbn. rewrite app_nil_r. repeat split.
  - destruct o as [r | e]; cbn [process_results error_events].
    + apply IH.
    + cbn [bind perform run handle].
      destruct (IH (S i) (acc ++ [failed_result])%list
                  (with_log w (LogError "batch_query_error" i (str_exn e))))
        as (H1 & H2 & H3 & H4 & H5).
      cbn zeta in *. rewrite H1, H2, H3, H4, H5. cbn [with_log log clock redis permits io].
      rewrite <- app_assoc. repeat split.
Qed.

Lemma error_events_In (results : list outcome) :
  forall (i j : nat) (msg : string),
    In (LogError "batch_query_error" j msg) (error_events i results)
    <-> (i <= j)%nat
        /\ exists e, nth_error results (j - i) = Some (Raised e)
                     /\ msg = str_exn e.
Proof.
  induction results as [| o results IH]; intros i j msg.
  - cbn. split; [tauto |]. intros [_ [e [H _]]]. destruct (j - i)%nat; discriminate H.
  - destruct o as [r | e]; cbn [error_events In]; rewrite IH.
    + split.
      * intros [Hle (e & He & Hm)]. split; [lia |]. exists e. split; [| exact Hm].
        replace (j - i)%nat with (S (j - S i)) by lia. exact He.
      * intros [Hle (e & He & Hm)].
        destruct (j - i)%nat as [| n] eqn:Hn; [discriminate He |].
        split; [lia |]. exists e. split; [| exact Hm].
        replace (j - S i)%nat with n by lia. exact He.
    + split.
      * intros [Heq | [Hle (e' & He & Hm)]].
        -- injection Heq as <- <-. split; [lia |]. exists e.
           rewrite Nat.sub_diag. split; reflexivity.
        -- split; [lia |]. exists e'. split; [| exact Hm].
           replace (j - i)%nat with (S (j - S i)) by lia. exact He.
      * intros [Hle (e' & He & Hm)].
        destruct (j - i)%nat as [| n] eqn:Hn.
        -- left. injection He as <-. subst msg. f_equal. lia.
        -- right. split; [lia |]. exists e'. split; [| exact Hm].
           replace (j - S i)%nat with n by lia. exact He.
Qed.

Lemma error_events_length (results : list outcome) :
  forall i,
    List.length (error_events i results) = List.length (filter raised results).
Proof.
  induction results as [| [r | e] results IH]; intros i; cbn; auto.
Qed.

(** X12. Apart from what the calls did themselves, a batch that returns
    changes nothing but the log, to which it appends exactly one
    [batch_query_error] entry per call that raised and nothing else: the
    entries come in the order of the queries, each carrying the position of
    its query and the text of its exception, and there are as many entries
    as calls that raised. *)
Theorem batch_logs_each_failure :
  forall (env : Env) (sched : list action) (w w' : World)
         (queries : list MetricQuery) (c : coro (list MetricResult)),
    batch_get_metrics env sched w queries = Some (w', c) ->
    let s := run_pool env sched (w, batch_tasks queries) in
    exists results,
      gather (snd s) = Some results
      /\ w'.(log) = ((fst s).(log) ++ error_events 0 results)%list
      /\ List.length (error_events 0 results)
         = List.length (filter raised results)
      /\ w'.(clock) = (fst s).(clock) /\ w'.(redis) = (fst s).(redis)
      /\ w'.(permits) = (fst s).(permits) /\ w'.(io) = (fst s).(io)
      /\ (forall i msg,
            In (LogError "batch_query_error" i msg) (error_events 0 results)
            <-> exists e, nth_error results i = Some (Raised e)
                          /\ msg = str_exn e).
Proof.
  intros env sched w w' queries c Hb. cbn zeta.
  unfold batch_get_metrics in Hb. fold (batch_tasks queries) in Hb.
  destruct (run_pool env sched (w, batch_tasks queries)) as [w1 pool].
  cbn [fst snd]. destruct (gather pool) as [results |]; [| discriminate Hb].
  pose proof (process_results_world env results 0 [] w1) as H. cbn zeta in H.
  destruct (run env w1 (process_results 0 results [])) as [w2 c2].
  injection Hb as <- <-. cbn [fst] in H.
  destruct H as (H1 & H2 & H3 & H4 & H5).
  exists results.
  repeat split; try assumption.
  - apply error_events_length.
  - intros Hin. apply error_events_In in Hin.
    destruct Hin as [_ (e & He & Hm)]. rewrite Nat.sub_0_r in He. now exists e.
  - intros (e & He & Hm). apply error_events_In. split; [lia |].
    exists e. rewrite Nat.sub_0_r. now split.
Qed.

Lemma batch_logs_each_failure_witness :
  exists w' c results,
    batch_get_metrics env_missing_view round_robin (init_world t0 100)
      [q_active_users; q_malformed; q_cold] = Some (w', c)
    /\ gather (snd (run_pool env_missing_view round_robin
                      (init_world t0 100,
                       batch_tasks [q_active_users; q_malformed; q_cold])))
       = Some results
    /\ w'.(log)
       = ((fst (run_pool env_missing_view round_robin
                  (init_world t0 100,
                   batch_tasks [q_active_users; q_malformed; q_cold]))).(log)
          ++ error_events 0 results)%list.
Proof.
  destruct (batch_get_metrics env_missing_view round_robin (init_world t0 100)
              [q_active_users; q_malformed; q_cold]) as [[w' c] |] eqn:Hb;
    [| vm_compute in Hb; discriminate Hb].
  destruct (batch_logs_each_failure env_missing_view round_robin
              (init_world t0 100) w' [q_active_users; q_malformed; q_cold] c Hb)
    as (results & Hg & Hl & _).
  exists w', c, results. repeat split; assumption.
Defined.

Example batch_log_entry :
  exists w' c,
    batch_get_metrics env_missing_view round_robin (init_world t0 100)
      [q_active_users; q_malformed; q_cold] = Some (w', c)
    /\ In (LogError "batch_query_error" 1 "relation does not exist") w'.(log).
Proof.
  eexists. eexists. split; [vm_compute; reflexivity |].
  vm_compute. tauto.
Qed.

(** ** The cache wrappers *)

(** X13. What [_set_cache] writes, [_get_from_cache] reads back for the
    length of the TTL and no longer, an empty row list included (the
    wrapper tells a cached empty list from a missing entry); a second write
    under the same key replaces the first with its own TTL. *)
Theorem cache_round_trip :
  forall (env : Env) (w : World) (key : string) (data1 data2 : list Row)
         (ttl1 ttl2 : Z) (us : N),
    env.(cache_set_fault) w.(clock) key = None ->
    env.(cache_get_fault) (w.(clock) + Z.of_N us) key = None ->
    let w1 := fst (run env w (_set_cache key data1 ttl1)) in
    let w2 := fst (run env w1 (_set_cache key data2 ttl2)) in
    snd (run env (advance w1 us) (_get_from_cache key))
    = Ret (if Z.of_N us <? ttl1 * US_PER_SECOND then Some data1 else None)
    /\ snd (run env (advance w2 us) (_get_from_cache key))
       = Ret (if Z.of_N us <? ttl2 * US_PER_SECOND then Some data2 else None).
Proof.
  intros env w key data1 data2 ttl1 ttl2 us Hset Hget. cbn zeta.
  unfold _set_cache, _get_from_cache.
  run_tree. cbn [advance clock redis]. run_tree.
  cbn [redis_lookup]. rewrite !String.eqb_refl.
  split.
  - destruct (Z.ltb_spec (clock w + Z.of_N us) (clock w + ttl1 * US_PER_SECOND));
      destruct (Z.ltb_spec (Z.of_N us) (ttl1 * US_PER_SECOND)); try lia;
      reflexivity.
  - destruct (Z.ltb_spec (clock w + Z.of_N us) (clock w + ttl2 * US_PER_SECOND));
      destruct (Z.ltb_spec (Z.of_N us) (ttl2 * US_PER_SECOND)); try lia;
      reflexivity.
Qed.

Lemma cache_round_trip_witness :
  snd (run env_ok
         (advance (fst (run env_ok (init_world t0 100)
                          (_set_cache "k" [] 300))) 1000000)
         (_get_from_cache "k"))
  = Ret (Some []).
Proof.
  apply (cache_round_trip env_ok (init_world t0 100) "k" [] [] 300 300 1000000);
    reflexivity.
Defined.

(** ** Order of the filters *)

Lemma sorted_unique {V} (l1 : dict V) :
  forall l2,
    StronglySorted le_key l1 -> StronglySorted le_key l2 ->
    Permutation l1 l2 -> NoDup (map fst l1) -> l1 = l2.
Proof.
  induction l1 as [| a l1 IH]; intros l2 Hs1 Hs2 Hp Hnd.
  - apply Permutation_nil in Hp. now subst.
  - destruct l2 as [| b l2]; [symmetry in Hp; now apply Permutation_nil in Hp |].
    inversion Hs1 as [| ? ? Hs1' Ha]; inversion Hs2 as [| ? ? Hs2' Hb]; subst.
    assert (Hnd2 : NoDup (map fst (b :: l2))).
    { eapply Permutation_NoDup; [| exact Hnd]. now apply Permutation_map. }
    assert (Hab : a = b).
    { assert (Hin1 : In a (b :: l2)) by (eapply Permutation_in; [exact Hp | now left]).
      assert (Hin2 : In b (a :: l1))
        by (eapply Permutation_in; [symmetry; exact Hp | now left]).
      destruct Hin1 as [-> | Hin1]; [reflexivity |].
      destruct Hin2 as [-> | Hin2]; [reflexivity |].
      assert (Hk : fst a = fst b).
      { apply String.leb_antisym.
        - exact (proj1 (Forall_forall _ _) Ha b Hin2).
        - exact (proj1 (Forall_forall _ _) Hb a Hin1). }
      exfalso. cbn [map] in Hnd2. inversion Hnd2 as [| ? ? Hnot _]; subst.
      apply Hnot. rewrite <- Hk. now apply in_map. }
    subst b. f_equal.
    apply IH; try assumption.
    + eapply Permutation_cons_inv; exact Hp.
    + cbn [map] in Hnd. now inversion Hnd.
Qed.

(** X14. The cache key does not depend on the order in which the filters
    were put in the mapping: two queries that differ only in the insertion
    order of their filters have the same key. *)
Theorem cache_key_ignores_filter_order :
  forall (q : MetricQuery) (f1 f2 : dict JVal),
    Permutation f1 f2 ->
    NoDup (map fst f1) ->
    _build_cache_key (with_filters q (Some f1))
    = _build_cache_key (with_filters q (Some f2)).
Proof.
  intros q f1 f2 Hp Hnd.
  assert (Hsort : Json.sorted_items f1 = Json.sorted_items f2).
  { destruct (sorted_items_spec f1) as [Hp1 Hs1].
    destruct (sorted_items_spec f2) as [Hp2 Hs2].
    apply sorted_unique; try assumption.
    - rewrite Hp1, Hp. now symmetry.
    - eapply Permutation_NoDup; [| exact Hnd].
      apply Permutation_map. now symmetry. }
  unfold _build_cache_key, with_filters, Json.dumps_sorted.
  cbn [metric_type start_date end_date granularity filters].
  rewrite Hsort.
  destruct f1 as [| x1 f1]; destruct f2 as [| x2 f2]; cbn [truthy];
    try reflexivity.
  - apply Permutation_nil in Hp. discriminate Hp.
  - symmetry in Hp. apply Permutation_nil in Hp. discriminate Hp.
Qed.

Lemma cache_key_ignores_filter_order_witness :
  _build_cache_key
    (with_filters q_active_users
       (Some [("user_id", JInt 42); ("tenant_id", JStr "t1")]))
  = _build_cache_key
      (with_filters q_active_users
         (Some [("tenant_id", JStr "t1"); ("user_id", JInt 42)])).
Proof.
  apply (cache_key_ignores_filter_order q_active_users).
  - apply perm_swap.
  - repeat constructor; cbn; intuition discriminate.
Defined.

(** ** Concurrent misses *)

(** X15. Concurrent calls for the same key are not coalesced: when two
    calls for one query both find the cache empty before either has an
    answer from the store, each takes a permit and each sends its own store
    query, so both queries are in flight at once. *)
Theorem concurrent_misses_are_not_coalesced :
  forall (env : Env) (w : World) (q : MetricQuery),
    _get_cache_strategy w.(clock) q.(start_date) <> COLD ->
    env.(cache_get_fault) w.(clock) (_build_cache_key q) = None ->
    redis_lookup w.(clock) (_build_cache_key q) w.(redis) = None ->
    (2 <= permits w)%nat ->
    let s := run_pool env
               [Run 0; Run 0; Run 0; Run 0; Run 1; Run 1; Run 1; Run 1]
               (w, batch_tasks [q; q]) in
    in_flight (snd s) = 2%nat
    /\ (fst s).(io)
       = (w.(io) ++ [IoCacheGet (_build_cache_key q);
                     IoCacheGet (_build_cache_key q)])%list
    /\ (fst s).(permits) = (permits w - 2)%nat.
Proof.
  intros env w q Hcold Hget Hlook Hp. cbn zeta.
  destruct (permits w) as [| [| n]] eqn:Hn; [lia | lia |].
  unfold batch_tasks, spawn. cbn [map].
  unfold get_metric, _get_from_cache, _query_database.
  destruct (_get_cache_strategy (clock w) (start_date q)) eqn:Hs;
    [| | contradiction];
    step_tree; rewrite <- app_assoc;
    repeat split; try reflexivity; cbn; lia.
Qed.

Lemma concurrent_misses_are_not_coalesced_witness :
  in_flight
    (snd (run_pool env_ok
            [Run 0; Run 0; Run 0; Run 0; Run 1; Run 1; Run 1; Run 1]
            (init_world t0 100, batch_tasks [q_active_users; q_active_users])))
  = 2%nat.
Proof.
  apply (concurrent_misses_are_not_coalesced env_ok (init_world t0 100)
           q_active_users).
  - vm_compute. discriminate.
  - reflexivity.
  - reflexivity.
  - cbn; lia.
Defined.

(** ** The empty batch *)

Lemma run_pool_empty (env : Env) (sched : list action) (w : World) :
  run_pool env sched (w, []) = (advance w (elapsed sched), []).
Proof.
  revert w. induction sched as [| a sched IH]; intros w.
  - unfold advance. cbn [run_pool fold_left elapsed fold_right Z.of_N].
    rewrite Z.add_0_r. now destruct w.
  - cbn [run_pool fold_left elapsed fold_right].
    fold (elapsed sched). fold (run_pool env sched (step_pool env (w, []) a)).
    destruct a as [i | us]; cbn [step_pool].
    + destruct i; cbn [nth_error]; apply IH.
    + rewrite IH. unfold advance. cbn [clock redis permits log io].
      f_equal. f_equal. rewrite N2Z.inj_add. lia.
Qed.

(** X16. A batch of no queries returns the empty list under every schedule:
    it makes no I/O, takes no permit and logs nothing; only the time the
    event loop let pass has passed. *)
Theorem empty_batch_returns_nothing :
  forall (env : Env) (sched : list action) (w : World),
    batch_get_metrics env sched w [] = Some (advance w (elapsed sched), Ret []).
Proof.
  intros env sched w. unfold batch_get_metrics. cbn [map].
  rewrite run_pool_empty. reflexivity.
Qed.
